(** * Dynamic Mode Decomposition with control: the module pydmd/dmdc.py

    A shallow embedding of the two control operators
    ([DMDBKnownOperator], [DMDBUnknownOperator]) and of the model class
    [DMDc] with its methods [fit] and [reconstructed_data].

    Arrays are numpy arrays with their shapes; every operation that numpy
    refuses on a shape mismatch returns an exception here.  Scalars are kept
    abstract (a type [C] with the operations of the class [Scalar]): the
    module never looks inside a number, it only adds, multiplies,
    conjugates, inverts and raises to a power.  The routines the module
    imports from the rest of the package (SVD, eigen-solver,
    pseudo-inverse, amplitude fit, input parsing, the plain operator of the
    base class) are the fields of the class [Externals].  A method is a
    function from the object to a result and the object it leaves, so that
    what is assigned before an exception stays assigned. *)

From Stdlib Require Import List ZArith Lia Bool Arith.
Import ListNotations.

Set Implicit Arguments.

(** ** Scalars *)

Class Scalar (C : Type) : Type := {
  czero : C;
  cadd : C -> C -> C;          (* a + b *)
  csub : C -> C -> C;          (* a - b *)
  cmul : C -> C -> C;          (* a * b *)
  cconj : C -> C;              (* a.conj() *)
  creciprocal : C -> C;        (* np.reciprocal(a) *)
  cpower : C -> Z -> C         (* np.power(a, e), e an integer *)
}.

(** ** Exceptions and results *)

Inductive exn : Type :=
| ValueError                 (* numpy: shapes not aligned / cannot broadcast *)
| IndexError                 (* numpy: index out of bounds *)
| AttributeError             (* attribute access on None *)
| ZeroDivisionError          (* old_div by zero *)
| ReconstructionSizeError    (* the RuntimeError of reconstructed_data *)
| ExternalError.             (* raised inside an imported routine *)

Inductive result (A : Type) : Type :=
| Ok (a : A)
| Err (e : exn).
Arguments Ok {A} a.
Arguments Err {A} e.

Definition rbind {A B} (r : result A) (k : A -> result B) : result B :=
  match r with
  | Ok a => k a
  | Err e => Err e
  end.

(** An imported routine either answers or raises an exception of its own. *)
Definition of_external {A} (o : option A) : result A :=
  match o with
  | Some a => Ok a
  | None => Err ExternalError
  end.

(** An attribute that may still hold None. *)
Definition not_None {A} (o : option A) : result A :=
  match o with
  | Some a => Ok a
  | None => Err AttributeError
  end.

(** ** numpy arrays *)

Section Arrays.
Context {C : Type} {S : Scalar C}.

(** A 1-D array; its shape is [(length v,)]. *)
Definition vector : Type := list C.

(** A 2-D array of shape [(nrows, ncols)], stored by rows.  The column
    count is kept apart so that an array with no row has a shape. *)
Record matrix : Type := Mat { ncols : nat; mrows : list vector }.

Definition nrows (M : matrix) : nat := length (mrows M).

Definition wf (M : matrix) : Prop :=
  Forall (fun r => length r = ncols M) (mrows M).

(** [M[:, j]] read without a bound check. *)
Definition col (j : nat) (M : matrix) : vector :=
  map (fun r => nth j r czero) (mrows M).

Definition columns (M : matrix) : list vector :=
  map (fun j => col j M) (seq 0 (ncols M)).

(** [M.T]; iterating over it yields the columns of [M]. *)
Definition transpose (M : matrix) : matrix :=
  Mat (nrows M) (columns M).

(** [M.conj()] *)
Definition conj (M : matrix) : matrix :=
  Mat (ncols M) (map (map cconj) (mrows M)).

(** [M.T.conj()] *)
Definition T_conj (M : matrix) : matrix := conj (transpose M).

(** The inner product numpy accumulates for one entry of a product. *)
Definition inner (u v : vector) : C :=
  fold_left (fun acc ab => cadd acc (cmul (fst ab) (snd ab)))
            (combine u v) czero.

(** The entries of [A.dot(B)] when the shapes agree. *)
Definition mmul (A B : matrix) : matrix :=
  Mat (ncols B) (map (fun r => map (inner r) (columns B)) (mrows A)).

(** [A.dot(B)] for 2-D arrays. *)
Definition dot (A B : matrix) : result matrix :=
  if ncols A =? nrows B then Ok (mmul A B) else Err ValueError.

Definition mvmul (A : matrix) (v : vector) : vector :=
  map (fun r => inner r v) (mrows A).

(** [A.dot(v)] for a 2-D array and a 1-D array. *)
Definition dot_vec (A : matrix) (v : vector) : result vector :=
  if ncols A =? length v then Ok (mvmul A v) else Err ValueError.

(** [np.vstack([A, B])] *)
Definition vstack (A B : matrix) : result matrix :=
  if ncols A =? ncols B
  then Ok (Mat (ncols A) (mrows A ++ mrows B))
  else Err ValueError.

(** [M[:n, :]] and [M[n:, :]] *)
Definition rows_upto (n : nat) (M : matrix) : matrix :=
  Mat (ncols M) (firstn n (mrows M)).
Definition rows_from (n : nat) (M : matrix) : matrix :=
  Mat (ncols M) (skipn n (mrows M)).

(** [M[:, :-1]] and [M[:, 1:]] *)
Definition cols_but_last (M : matrix) : matrix :=
  Mat (ncols M - 1) (map (@removelast C) (mrows M)).
Definition cols_but_first (M : matrix) : matrix :=
  Mat (ncols M - 1) (map (@tl C) (mrows M)).

(** [M[:, 0]] *)
Definition first_column (M : matrix) : result vector :=
  if ncols M =? 0 then Err IndexError else Ok (col 0 M).

(** [np.reciprocal(v)] and [np.power(v, e)], element by element. *)
Definition reciprocal (v : vector) : vector := map creciprocal v.
Definition power (v : vector) (e : Z) : vector :=
  map (fun z => cpower z e) v.

(** [np.diag(v)] for a 1-D array. *)
Definition diag_row (n i : nat) (x : C) : vector :=
  map (fun j => if j =? i then x else czero) (seq 0 n).
Fixpoint diag_rows (n i : nat) (v : vector) : list vector :=
  match v with
  | [] => []
  | x :: v' => diag_row n i x :: diag_rows n (Datatypes.S i) v'
  end.
Definition diag (v : vector) : matrix :=
  Mat (length v) (diag_rows (length v) 0 v).

(** Broadcasting of one axis: equal lengths, or one of them is 1. *)
Definition broadcast_dim (a b : nat) : option nat :=
  if a =? b then Some a
  else if a =? 1 then Some b
  else if b =? 1 then Some a
  else None.

(** Entry [i] of a 1-D array stretched along its axis. *)
Definition stretch (v : vector) (i : nat) : C :=
  if length v =? 1 then nth 0 v czero else nth i v czero.

(** Row [i] of a 2-D array stretched along its first axis. *)
Definition stretch_row (M : matrix) (i : nat) : vector :=
  if nrows M =? 1 then nth 0 (mrows M) [] else nth i (mrows M) [].

(** [u + v] for 1-D arrays. *)
Definition vadd (u v : vector) : result vector :=
  match broadcast_dim (length u) (length v) with
  | Some n =>
      Ok (map (fun i => cadd (stretch u i) (stretch v i)) (seq 0 n))
  | None => Err ValueError
  end.

(** [A - B] for 2-D arrays. *)
Definition msub (A B : matrix) : result matrix :=
  match broadcast_dim (nrows A) (nrows B),
        broadcast_dim (ncols A) (ncols B) with
  | Some r, Some c =>
      Ok (Mat c
            (map (fun i =>
                    map (fun j => csub (stretch (stretch_row A i) j)
                                       (stretch (stretch_row B i) j))
                        (seq 0 c))
                 (seq 0 r)))
  | _, _ => Err ValueError
  end.

(** [np.array(data).T] for a list of 1-D arrays: the arrays become the
    columns of the result; arrays of different lengths are refused. *)
Definition same_length (n : nat) (data : list vector) : bool :=
  forallb (fun v => length v =? n) data.

Definition array_T (data0 : vector) (rest : list vector)
  : result matrix :=
  if same_length (length data0) rest
  then Ok (transpose (Mat (length data0) (data0 :: rest)))
  else Err ValueError.

End Arrays.

(** ** Objects *)

(** The [svd_rank] arguments: an integer (0: optimal rank, -1: no
    truncation, positive: that rank) or a fraction of the energy. *)
Inductive rank_spec : Type :=
| RankInt (r : Z)
| RankEnergy (num : Z) (den : positive).

Inductive operator_class : Type := BKnown | BUnknown.

Definition shape : Type := list nat.

Record time_dict : Type := TimeDict { t0 : Z; tend : Z; dt : Z }.

(** The keyword arguments [DMDc] remembers for the operator it builds in
    [fit]; [svd_rank_omega] may be absent. *)
Record operator_kwargs : Type := Kwargs {
  kw_svd_rank : rank_spec;
  kw_svd_rank_omega : option rank_spec
}.

Section Objects.
Context {C : Type} {S : Scalar C}.
Local Abbreviation vector := (@vector C).
Local Abbreviation matrix := (@matrix C).

(** An instance of [DMDBKnownOperator] or [DMDBUnknownOperator].  The
    attribute the source calls [_Atilde] on the operator is [op_Atilde]
    here, since the model object has an attribute [_Atilde] too. *)
Record DMDOperator : Type := Operator {
  op_class : operator_class;
  _svd_rank : rank_spec;
  _svd_rank_omega : rank_spec;
  op_Atilde : option matrix;
  _eigenvalues : option vector;
  _eigenvectors : option matrix;
  _modes : option matrix;
  _Lambda : option vector
}.

Definition set_op_Atilde (v : option matrix) (o : DMDOperator) :=
  Operator (op_class o) (_svd_rank o) (_svd_rank_omega o) v
           (_eigenvalues o) (_eigenvectors o) (_modes o) (_Lambda o).
Definition set__eigenvalues (v : option vector) (o : DMDOperator) :=
  Operator (op_class o) (_svd_rank o) (_svd_rank_omega o) (op_Atilde o)
           v (_eigenvectors o) (_modes o) (_Lambda o).
Definition set__eigenvectors (v : option matrix) (o : DMDOperator) :=
  Operator (op_class o) (_svd_rank o) (_svd_rank_omega o) (op_Atilde o)
           (_eigenvalues o) v (_modes o) (_Lambda o).
Definition set__modes (v : option matrix) (o : DMDOperator) :=
  Operator (op_class o) (_svd_rank o) (_svd_rank_omega o) (op_Atilde o)
           (_eigenvalues o) (_eigenvectors o) v (_Lambda o).
Definition set__Lambda (v : option vector) (o : DMDOperator) :=
  Operator (op_class o) (_svd_rank o) (_svd_rank_omega o) (op_Atilde o)
           (_eigenvalues o) (_eigenvectors o) (_modes o) v.

(** [DMDControlOperator.__init__]: [svd_rank_omega] defaults to -1. *)
Definition DMDControlOperator_init (c : operator_class)
           (kw : operator_kwargs) : DMDOperator :=
  Operator c (kw_svd_rank kw)
           (match kw_svd_rank_omega kw with
            | Some r => r
            | None => RankInt (-1)
            end)
           None None None None None.

(** An instance of [DMDc]. *)
Record DMDc : Type := Model {
  _Atilde : option DMDOperator;
  _dmd_operator_kwargs : operator_kwargs;
  original_time : option time_dict;
  dmd_time : option time_dict;
  _b : option vector;
  _snapshots : option matrix;
  _snapshots_shape : option shape;
  _B : option matrix;
  _controlin : option matrix;
  _controlin_shape : option shape;
  _basis : option matrix
}.

Definition set__Atilde (v : option DMDOperator) (m : DMDc) :=
  Model v (_dmd_operator_kwargs m) (original_time m) (dmd_time m) (_b m)
        (_snapshots m) (_snapshots_shape m) (_B m) (_controlin m)
        (_controlin_shape m) (_basis m).
Definition set_original_time (v : option time_dict) (m : DMDc) :=
  Model (_Atilde m) (_dmd_operator_kwargs m) v (dmd_time m) (_b m)
        (_snapshots m) (_snapshots_shape m) (_B m) (_controlin m)
        (_controlin_shape m) (_basis m).
Definition set_dmd_time (v : option time_dict) (m : DMDc) :=
  Model (_Atilde m) (_dmd_operator_kwargs m) (original_time m) v (_b m)
        (_snapshots m) (_snapshots_shape m) (_B m) (_controlin m)
        (_controlin_shape m) (_basis m).
Definition set__b (v : option vector) (m : DMDc) :=
  Model (_Atilde m) (_dmd_operator_kwargs m) (original_time m)
        (dmd_time m) v (_snapshots m) (_snapshots_shape m) (_B m)
        (_controlin m) (_controlin_shape m) (_basis m).
Definition set__snapshots (v : option matrix) (m : DMDc) :=
  Model (_Atilde m) (_dmd_operator_kwargs m) (original_time m)
        (dmd_time m) (_b m) v (_snapshots_shape m) (_B m) (_controlin m)
        (_controlin_shape m) (_basis m).
Definition set__snapshots_shape (v : option shape) (m : DMDc) :=
  Model (_Atilde m) (_dmd_operator_kwargs m) (original_time m)
        (dmd_time m) (_b m) (_snapshots m) v (_B m) (_controlin m)
        (_controlin_shape m) (_basis m).
Definition set__B (v : option matrix) (m : DMDc) :=
  Model (_Atilde m) (_dmd_operator_kwargs m) (original_time m)
        (dmd_time m) (_b m) (_snapshots m) (_snapshots_shape m) v
        (_controlin m) (_controlin_shape m) (_basis m).
Definition set__controlin (v : option matrix) (m : DMDc) :=
  Model (_Atilde m) (_dmd_operator_kwargs m) (original_time m)
        (dmd_time m) (_b m) (_snapshots m) (_snapshots_shape m) (_B m) v
        (_controlin_shape m) (_basis m).
Definition set__controlin_shape (v : option shape) (m : DMDc) :=
  Model (_Atilde m) (_dmd_operator_kwargs m) (original_time m)
        (dmd_time m) (_b m) (_snapshots m) (_snapshots_shape m) (_B m)
        (_controlin m) v (_basis m).
Definition set__basis (v : option matrix) (m : DMDc) :=
  Model (_Atilde m) (_dmd_operator_kwargs m) (original_time m)
        (dmd_time m) (_b m) (_snapshots m) (_snapshots_shape m) (_B m)
        (_controlin m) (_controlin_shape m) v.

(** [DMDc.__init__] followed by [_initialize_dmdoperator]: nothing is
    fitted, the keyword arguments are remembered. *)
Definition DMDc_init (kw : operator_kwargs) : DMDc :=
  Model None kw None None None None None None None None None.

End Objects.

(** ** Methods: state and exceptions

    A method runs on the object it is called on.  It returns a value or
    raises, and in both cases leaves the object as the assignments made so
    far have left it: an exception undoes nothing. *)

Definition M (St A : Type) : Type := St -> result A * St.

Definition ret {St A} (a : A) : M St A := fun s => (Ok a, s).

Definition bind {St A B} (m : M St A) (k : A -> M St B) : M St B :=
  fun s => match m s with
           | (Ok a, s') => k a s'
           | (Err e, s') => (Err e, s')
           end.

Definition raise {St A} (e : exn) : M St A := fun s => (Err e, s).

(** A computation that does not touch the object. *)
Definition pure {St A} (r : result A) : M St A := fun s => (r, s).

(** Reading an attribute, and assigning to one. *)
Definition read {St A} (f : St -> A) : M St A := fun s => (Ok (f s), s).
Definition assign {St} (f : St -> St) : M St unit := fun s => (Ok tt, f s).

(** Reading an attribute to use what it holds. *)
Definition attr {St A} (f : St -> option A) : M St A :=
  fun s => (not_None (f s), s).

(** A method that writes nothing on its object, whatever it returns. *)
Definition readonly {St A} (m : M St A) : Prop :=
  forall s r s', m s = (r, s') -> s' = s.

(** A method that never raises the exception [e]. *)
Definition avoids {St A} (e : exn) (m : M St A) : Prop :=
  forall s s', m s <> (Err e, s').

(** A method that keeps a property of its object, whatever it returns;
    and one that keeps it at least when it raises. *)
Definition preserves {St A} (P : St -> Prop) (m : M St A) : Prop :=
  forall s r s', P s -> m s = (r, s') -> P s'.

Definition preserves_on_error {St A} (P : St -> Prop) (m : M St A) : Prop :=
  forall s e s', P s -> m s = (Err e, s') -> P s'.

Declare Scope method_scope.
Delimit Scope method_scope with method.
Notation "x <- m ;; k" := (bind m (fun x => k))
  (at level 61, m at next level, right associativity) : method_scope.
Notation "' p <- m ;; k" := (bind m (fun x => let p := x in k))
  (at level 61, p pattern, m at next level, right associativity)
  : method_scope.
Notation "m ;; k" := (bind m (fun _ => k))
  (at level 61, right associativity) : method_scope.

(** A chain of [.dot(...)] calls stops at the first one that raises. *)
Definition then_dot {C : Type} {S : Scalar C} (r : result (@matrix C))
           (B : @matrix C) : result (@matrix C) :=
  rbind r (fun A => dot A B).
Notation "r '.dot' B" := (then_dot r B) (at level 40, left associativity).

(** The same chain, with its factors in a list. *)
Fixpoint chain {C : Type} {S : Scalar C} (r : result (@matrix C))
         (factors : list (@matrix C)) : result (@matrix C) :=
  match factors with
  | [] => r
  | B :: rest => chain (r .dot B) rest
  end.

(** ** The routines imported from the rest of the package *)

Section Imported.
Context {C : Type}.
Local Abbreviation vector := (@vector C).
Local Abbreviation matrix := (@matrix C).
Local Abbreviation DMDOperator := (@DMDOperator C).
Local Abbreviation DMDc := (@DMDc C).

Class Externals : Type := {
  (** what a caller passes as snapshots or control: an array or an
      iterable of arrays *)
  raw : Type;
  (** [DMDBase._col_major_2darray]: the 2-D array and the shape of the
      snapshots it was made of (None for an input that is 2-D already) *)
  _col_major_2darray : raw -> option (matrix * option shape);
  (** [DMDOperator._compute_svd(X, svd_rank)]: [(U, s, V)] *)
  _compute_svd : matrix -> rank_spec -> option (matrix * vector * matrix);
  (** the eigen-solver: eigenvalues and eigenvectors of a square array *)
  eig : matrix -> option (vector * matrix);
  (** [np.linalg.pinv] *)
  pinv : matrix -> option matrix;
  (** [DMDOperator.compute_operator(X, Y)], the operator without control:
      it returns [(U, s, V)] and writes the reduced operator, its
      eigenquantities and the modes on the operator object *)
  DMDOperator_compute_operator :
    matrix -> matrix -> DMDOperator ->
    option (matrix * vector * matrix) * DMDOperator;
  (** the amplitude fit, from modes, eigenvalues and snapshots *)
  compute_amplitudes : matrix -> vector -> matrix -> option vector
}.

End Imported.
Arguments Externals C : clear implicits.

Section Methods.
Context {C : Type} {S : Scalar C} {E : Externals C}.
Local Abbreviation vector := (@vector C).
Local Abbreviation matrix := (@matrix C).
Local Abbreviation DMDOperator := (@DMDOperator C).
Local Abbreviation DMDc := (@DMDc C).
Local Open Scope method_scope.

(** *** DMDOperator: what the operators inherit *)

(** Modelled from the spec: [DMDOperator._compute_eigenquantities] is
    not part of this module; it is the side-effecting call that
    establishes the eigenvalues and eigenvectors of the reduced operator
    the object currently holds, through the eigen-solver. *)
Definition _compute_eigenquantities : M DMDOperator unit :=
  Atilde <- attr op_Atilde ;;
  '(w, W) <- pure (of_external (eig Atilde)) ;;
  assign (set__eigenvalues (Some w)) ;;
  assign (set__eigenvectors (Some W)).

(** Modelled from the spec: the read-only accessors [eigenvalues],
    [eigenvectors] and [modes] of [DMDOperator] return what the object
    holds. *)
Definition eigenvalues : M DMDOperator vector := attr _eigenvalues.
Definition eigenvectors : M DMDOperator matrix := attr _eigenvectors.
Definition modes : M DMDOperator matrix := attr _modes.

(** *** DMDBKnownOperator *)

Definition DMDBKnownOperator_compute_operator
           (X Y B controlin : matrix)
  : M DMDOperator (matrix * vector * matrix) :=
  Y <- pure (rbind (dot B controlin) (msub Y)) ;;
  fun o => let (r, o') := DMDOperator_compute_operator X Y o in
           (of_external r, o').

(** *** DMDBUnknownOperator *)

Definition _compute_modes_and_Lambda (Y : matrix) (sp : vector)
           (Vp Up1 Ur : matrix) : M DMDOperator unit :=
  P <- pure (Ok Y .dot Vp .dot diag (reciprocal sp)
                  .dot T_conj Up1 .dot Ur) ;;
  W <- eigenvectors ;;
  Phi <- pure (dot P W) ;;
  assign (set__modes (Some Phi)) ;;
  w <- eigenvalues ;;
  assign (set__Lambda (Some w)).

Definition DMDBUnknownOperator_compute_operator
           (X Y controlin : matrix) (snapshots_rows : nat)
  : M DMDOperator (matrix * matrix) :=
  omega <- pure (vstack X controlin) ;;
  rank_omega <- read _svd_rank_omega ;;
  '(Up, sp, Vp) <- pure (of_external (_compute_svd omega rank_omega)) ;;
  let Up1 := rows_upto snapshots_rows Up in
  let Up2 := rows_from snapshots_rows Up in
  rank <- read _svd_rank ;;
  '(Ur, sr, Vr) <- pure (of_external (_compute_svd Y rank)) ;;
  Atilde <- pure (Ok (T_conj Ur) .dot Y .dot Vp
                       .dot diag (reciprocal sp) .dot T_conj Up1
                       .dot Ur) ;;
  assign (set_op_Atilde (Some Atilde)) ;;
  _compute_eigenquantities ;;
  _compute_modes_and_Lambda Y sp Vp Up1 Ur ;;
  Btilde <- pure (Ok (T_conj Ur) .dot Y .dot Vp
                       .dot diag (reciprocal sp) .dot T_conj Up2) ;;
  B <- pure (dot Ur Btilde) ;;
  ret (Ur, B).

(** *** DMDc *)

(** A method call on the operator object the model holds in [_Atilde];
    what the method writes on the operator stays written. *)
Definition on_operator {A} (m : M DMDOperator A) : M DMDc A :=
  fun s => match _Atilde s with
           | None => (Err AttributeError, s)
           | Some o => let (r, o') := m o in (r, set__Atilde (Some o') s)
           end.

(** Modelled from the spec: the read-only accessors [modes] and [eigs]
    of the base class show the modes and eigenvalues of the operator
    the model holds. *)
Definition DMDc_modes : M DMDc matrix := on_operator modes.
Definition DMDc_eigs : M DMDc vector := on_operator eigenvalues.

(** The number of instants [t0, t0 + dt, ...] below [tend + dt]. *)
Definition timesteps (t : time_dict) : result Z :=
  if (dt t =? 0)%Z then Err ZeroDivisionError
  else Ok (Z.max 0 (- ((- (tend t + dt t - t0 t)) / dt t)))%Z.

(** Modelled from the spec: the [dynamics] property of the base class is
    not part of this module; what [reconstructed_data] uses of it is its
    number of columns, the fitted horizon: one column for each instant
    of [dmd_time]. *)
Definition dynamics_shape_1 : M DMDc Z :=
  t <- attr dmd_time ;;
  pure (timesteps t).

(** Modelled from the spec: [DMDBase._compute_amplitudes] hands the
    modes, the eigenvalues and the snapshots to the amplitude fit. *)
Definition _compute_amplitudes : M DMDc vector :=
  Phi <- DMDc_modes ;;
  w <- DMDc_eigs ;;
  X <- attr _snapshots ;;
  pure (of_external (compute_amplitudes Phi w X)).

(** [old_div] of two integers. *)
Definition old_div (a b : Z) : result Z :=
  if (b =? 0)%Z then Err ZeroDivisionError else Ok (a / b)%Z.

(** The first statement after the size check of [reconstructed_data]:
    [np.power(self.eigs, old_div(dmd_time['dt'], original_time['dt']))]. *)
Definition scaled_eigs : M DMDc vector :=
  w <- DMDc_eigs ;;
  dmd_t <- attr dmd_time ;;
  orig_t <- attr original_time ;;
  e <- pure (old_div (dt dmd_t) (dt orig_t)) ;;
  ret (power w e).

(** The loop of [reconstructed_data]: [us] are the controls still to be
    applied, [i] the index [enumerate] has reached. *)
Fixpoint propagate (A : matrix) (us : list vector) (i : nat)
         (data : list vector) : M DMDc (list vector) :=
  match us with
  | [] => ret data
  | u :: us' =>
      x <- pure (match nth_error data i with
                 | Some x => Ok x
                 | None => Err IndexError
                 end) ;;
      Ax <- pure (dot_vec A x) ;;
      B <- attr _B ;;
      Bu <- pure (dot_vec B u) ;;
      next <- pure (vadd Ax Bu) ;;
      propagate A us' (Datatypes.S i) (data ++ [next])
  end.

(** What [reconstructed_data] does once the size check has passed: the
    transition operator, the loop and the final array. *)
Definition reconstructed_data_body (controlin : matrix)
  : M DMDc matrix :=
  eigs <- scaled_eigs ;;
  Phi <- DMDc_modes ;;
  PhiD <- pure (dot Phi (diag eigs)) ;;
  Phi' <- DMDc_modes ;;
  Pinv <- pure (of_external (pinv Phi')) ;;
  A <- pure (dot PhiD Pinv) ;;
  X <- attr _snapshots ;;
  x0 <- pure (first_column X) ;;
  data <- propagate A (columns controlin) 0 [x0] ;;
  (* data holds data[0] at least *)
  match data with
  | [] => raise IndexError
  | d0 :: rest => pure (array_T d0 rest)
  end.

Definition reconstructed_data (control_input : option raw)
  : M DMDc matrix :=
  '(controlin, controlin_shape) <-
     match control_input with
     | None =>
         c <- read _controlin ;;
         sh <- read _controlin_shape ;;
         ret (c, sh)
     | Some ci =>
         '(c, sh) <- pure (of_external (_col_major_2darray ci)) ;;
         ret (Some c, sh)
     end ;;
  controlin <- pure (not_None controlin) ;;
  horizon <- dynamics_shape_1 ;;
  if negb (Z.of_nat (ncols controlin) =? horizon - 1)%Z
  then raise ReconstructionSizeError
  else reconstructed_data_body controlin.

Definition fit (X I : raw) (B : option matrix) : M DMDc unit :=
  '(snapshots, snapshots_shape) <-
     pure (of_external (_col_major_2darray X)) ;;
  assign (set__snapshots (Some snapshots)) ;;
  assign (set__snapshots_shape snapshots_shape) ;;
  '(controlin, controlin_shape) <-
     pure (of_external (_col_major_2darray I)) ;;
  assign (set__controlin (Some controlin)) ;;
  assign (set__controlin_shape controlin_shape) ;;
  snapshots <- attr _snapshots ;;
  let n_samples := ncols snapshots in
  let X := cols_but_last snapshots in
  let Y := cols_but_first snapshots in
  let time := TimeDict 0 (Z.of_nat n_samples - 1) 1 in
  assign (set_original_time (Some time)) ;;
  assign (set_dmd_time (Some time)) ;;
  match B with
  | None =>
      kw <- read _dmd_operator_kwargs ;;
      assign (set__Atilde (Some (DMDControlOperator_init BUnknown kw))) ;;
      controlin <- attr _controlin ;;
      snapshots <- attr _snapshots ;;
      '(basis, B) <-
         on_operator (DMDBUnknownOperator_compute_operator
                        X Y controlin (nrows snapshots)) ;;
      assign (set__basis (Some basis)) ;;
      assign (set__B (Some B))
  | Some B =>
      kw <- read _dmd_operator_kwargs ;;
      assign (set__Atilde (Some (DMDControlOperator_init BKnown kw))) ;;
      controlin <- attr _controlin ;;
      '(U, _, _) <-
         on_operator (DMDBKnownOperator_compute_operator
                        X Y B controlin) ;;
      assign (set__basis (Some U)) ;;
      assign (set__B (Some B))
  end ;;
  b <- _compute_amplitudes ;;
  assign (set__b (Some b)).

End Methods.

(** ** The control sequence a reconstruction uses, and what [fit] stores *)

Section ControlUsed.
Context {C : Type} {S : Scalar C} {E : Externals C}.
Local Abbreviation vector := (@vector C).
Local Abbreviation matrix := (@matrix C).
Local Abbreviation DMDOperator := (@DMDOperator C).
Local Abbreviation DMDc := (@DMDc C).

(** The control sequence [reconstructed_data] works with: the one it is
    given, parsed, or the stored one when the argument is omitted. *)
Definition control_used (control_input : option raw) (s : DMDc)
  : result matrix :=
  match control_input with
  | None => not_None (_controlin s)
  | Some ci =>
      rbind (of_external (_col_major_2darray ci)) (fun p => Ok (fst p))
  end.

(** The time descriptor [fit] writes: {t0: 0, tend: n_samples - 1,
    dt: 1}. *)
Definition fit_time (snapshots : matrix) : time_dict :=
  TimeDict 0 (Z.of_nat (ncols snapshots) - 1) 1.

(** What the first statements of [fit] have stored once both inputs are
    parsed. *)
Definition inputs_stored (snapshots : matrix) (shp : option shape)
           (controlin : matrix) (cshp : option shape) (st : DMDc)
  : Prop :=
  _snapshots st = Some snapshots /\
  _snapshots_shape st = shp /\
  _controlin st = Some controlin /\
  _controlin_shape st = cshp /\
  original_time st = Some (fit_time snapshots) /\
  dmd_time st = Some (fit_time snapshots) /\
  exists op, _Atilde st = Some op.

(** The same imported routines, with another pseudo-inverse. *)
Definition with_pinv (f : matrix -> option matrix) : Externals C :=
  {| raw := raw;
     _col_major_2darray := _col_major_2darray;
     _compute_svd := _compute_svd;
     eig := eig;
     pinv := f;
     DMDOperator_compute_operator := DMDOperator_compute_operator;
     compute_amplitudes := compute_amplitudes |}.

End ControlUsed.

(** ** The accessors of the model, and the model once the inputs are in *)

Section Accessors.
Context {C : Type}.
Local Abbreviation vector := (@vector C).
Local Abbreviation matrix := (@matrix C).
Local Abbreviation DMDOperator := (@DMDOperator C).
Local Abbreviation DMDc := (@DMDc C).

(** The property [B]: the operator B, None before a fit. *)
Definition DMDc_B : M DMDc (option matrix) := read _B.

(** The property [basis]: the basis of the reduction, None before a
    fit. *)
Definition DMDc_basis : M DMDc (option matrix) := read _basis.

(** The model when [fit] has stored its inputs, written both time
    descriptors and put a new operator in place, and nothing else: the
    amplitudes, B and the basis are those of the model [s] it started
    from. *)
Definition inputs_in (s : DMDc) (c : operator_class) (snapshots : matrix)
           (shp : option shape) (controlin : matrix) (cshp : option shape)
  : DMDc :=
  Model (Some (DMDControlOperator_init c (_dmd_operator_kwargs s)))
        (_dmd_operator_kwargs s)
        (Some (fit_time snapshots)) (Some (fit_time snapshots))
        (_b s) (Some snapshots) shp (_B s) (Some controlin) cshp
        (_basis s).

End Accessors.

(** ** The formulas of the specification

    Written entry by entry, to be compared with what the methods
    compute. *)

Section Formulas.
Context {C : Type} {S : Scalar C}.
Local Abbreviation vector := (@vector C).
Local Abbreviation matrix := (@matrix C).
Local Abbreviation DMDOperator := (@DMDOperator C).
Local Abbreviation DMDc := (@DMDc C).

(** The conjugate transpose: entry (j, i) is the conjugate of entry
    (i, j). *)
Definition hermitian (M : matrix) : matrix :=
  Mat (nrows M)
      (map (fun j => map (fun r => cconj (nth j r czero)) (mrows M))
           (seq 0 (ncols M))).

(** diag(1/sigma): 1/sigma_i on the diagonal, zero elsewhere. *)
Definition diag_inv (sigma : vector) : matrix :=
  Mat (length sigma)
      (map (fun i =>
              map (fun j => if i =? j
                            then creciprocal (nth i sigma czero)
                            else czero)
                  (seq 0 (length sigma)))
           (seq 0 (length sigma))).

(** A product of several factors, taken from the left. *)
Definition product (A : matrix) (factors : list matrix) : matrix :=
  fold_left mmul factors A.

(** The factors are conformable: each has as many rows as the product
    before it has columns. *)
Fixpoint conformable (A : matrix) (factors : list matrix) : Prop :=
  match factors with
  | [] => True
  | B :: rest => ncols A = nrows B /\ conformable (mmul A B) rest
  end.

(** Atilde = Ur^H Y Vp diag(1/sp) Up1^H Ur *)
Definition reduced_state_operator (Ur Y Vp : matrix) (sp : vector)
           (Up1 : matrix) : matrix :=
  product (hermitian Ur) [Y; Vp; diag_inv sp; hermitian Up1; Ur].

(** Phi = Y Vp diag(1/sp) Up1^H Ur W *)
Definition control_modes (Y Vp : matrix) (sp : vector)
           (Up1 Ur W : matrix) : matrix :=
  product Y [Vp; diag_inv sp; hermitian Up1; Ur; W].

(** Btilde = Ur^H Y Vp diag(1/sp) Up2^H *)
Definition reduced_control_operator (Ur Y Vp : matrix) (sp : vector)
           (Up2 : matrix) : matrix :=
  product (hermitian Ur) [Y; Vp; diag_inv sp; hermitian Up2].

(** The difference of two arrays of one shape, entry by entry. *)
Definition entrywise_sub (A B : matrix) : matrix :=
  Mat (ncols A)
      (map (fun i =>
              map (fun j => csub (nth j (nth i (mrows A) []) czero)
                                 (nth j (nth i (mrows B) []) czero))
                  (seq 0 (ncols A)))
           (seq 0 (nrows A))).

End Formulas.

(** ** A worked instance

    Scalars are Gaussian integers, exact complex numbers with integer
    parts.  The imported routines answer on the arrays where the exact
    answer is a Gaussian integer array, and raise elsewhere. *)

Module Demo.

Local Open Scope Z_scope.

Definition G : Type := (Z * Z)%type.

Definition gadd (a b : G) : G :=
  let '(a1, a2) := a in let '(b1, b2) := b in (a1 + b1, a2 + b2).
Definition gsub (a b : G) : G :=
  let '(a1, a2) := a in let '(b1, b2) := b in (a1 - b1, a2 - b2).
Definition gmul (a b : G) : G :=
  let '(a1, a2) := a in
  let '(b1, b2) := b in
  (a1 * b1 - a2 * b2, a1 * b2 + a2 * b1).
Definition gconj (a : G) : G := let '(a1, a2) := a in (a1, - a2).
Definition gnorm2 (a : G) : Z := let '(a1, a2) := a in a1 * a1 + a2 * a2.
(** The inverse of a unit; zero elsewhere, where the integer reciprocal
    truncates. *)
Definition grecip (a : G) : G :=
  if gnorm2 a =? 1 then gconj a else (0, 0).
(** Powers by squaring; as in numpy, the power 1 is the number itself. *)
Fixpoint gpow_pos (a : G) (p : positive) : G :=
  match p with
  | xH => a
  | xO q => gmul (gpow_pos a q) (gpow_pos a q)
  | xI q => gmul a (gmul (gpow_pos a q) (gpow_pos a q))
  end.
Definition gpow (a : G) (e : Z) : G :=
  match e with
  | Z0 => (1, 0)
  | Zpos p => gpow_pos a p
  | Zneg p => grecip (gpow_pos a p)
  end.

#[export] Instance GaussZ : Scalar G :=
  {| czero := (0, 0); cadd := gadd; csub := gsub; cmul := gmul;
     cconj := gconj; creciprocal := grecip; cpower := gpow |}.

Local Abbreviation vector := (@vector G).
Local Abbreviation matrix := (@matrix G).
Local Abbreviation DMDOperator := (@DMDOperator G).
Local Abbreviation DMDc := (@DMDc G).

Definition geqb (a b : G) : bool :=
  let '(a1, a2) := a in let '(b1, b2) := b in (a1 =? b1) && (a2 =? b2).

Fixpoint list_eqb {A} (eqb : A -> A -> bool) (l1 l2 : list A) : bool :=
  match l1, l2 with
  | [], [] => true
  | x :: l1', y :: l2' => eqb x y && list_eqb eqb l1' l2'
  | _, _ => false
  end.

Definition meqb (A B : matrix) : bool :=
  (ncols A =? ncols B)%nat && list_eqb (list_eqb geqb) (mrows A) (mrows B).

Definition g (n : Z) : G := (n, 0).
Definition gi : G := (0, 1).

Definition I2 : matrix := Mat 2 [[g 1; g 0]; [g 0; g 1]].

(** The singular value decompositions of the identity of order 2 and of
    the rows [1 0] and [0 1], without truncation. *)
Definition demo_svd (X : matrix) (r : rank_spec)
  : option (matrix * vector * matrix) :=
  match r with
  | RankInt (-1) =>
      if meqb X I2 then Some (I2, [g 1; g 1], I2)
      else if meqb X (Mat 2 [[g 1; g 0]])
      then Some (Mat 1 [[g 1]], [g 1], Mat 1 [[g 1]; [g 0]])
      else if meqb X (Mat 2 [[g 0; g 1]])
      then Some (Mat 1 [[g 1]], [g 1], Mat 1 [[g 0]; [g 1]])
      else None
  | _ => None
  end.

(** A 1 x 1 array has its entry as eigenvalue, with eigenvector 1. *)
Definition demo_eig (A : matrix) : option (vector * matrix) :=
  match A with
  | Mat 1 [[a]] => Some ([a], Mat 1 [[g 1]])
  | _ => None
  end.

(** The pseudo-inverse of a 1 x 1 array: zero for zero, the inverse for
    a unit. *)
Definition demo_pinv (A : matrix) : option matrix :=
  match A with
  | Mat 1 [[a]] =>
      if gnorm2 a =? 0 then Some (Mat 1 [[g 0]])
      else if gnorm2 a =? 1 then Some (Mat 1 [[gconj a]])
      else None
  | _ => None
  end.

Definition to_option {A} (r : result A) : option A :=
  match r with
  | Ok a => Some a
  | Err _ => None
  end.

(** The operator without control: the decomposition of X, the reduced
    operator U^H Y V diag(1/s), its eigenquantities, the projected
    modes U W. *)
Definition demo_compute_operator (X Y : matrix) (o : DMDOperator)
  : option (matrix * vector * matrix) * DMDOperator :=
  match demo_svd X (_svd_rank o) with
  | Some (U, s, V) =>
      match to_option (Ok (T_conj U) .dot Y .dot V
                          .dot diag (reciprocal s)) with
      | Some Atilde =>
          let o1 := set_op_Atilde (Some Atilde) o in
          match demo_eig Atilde with
          | Some (w, W) =>
              let o2 := set__eigenvectors (Some W)
                          (set__eigenvalues (Some w) o1) in
              match to_option (dot U W) with
              | Some Phi =>
                  (Some (U, s, V),
                   set__Lambda (Some w) (set__modes (Some Phi) o2))
              | None => (None, o2)
              end
          | None => (None, o1)
          end
      | None => (None, o)
      end
  | None => (None, o)
  end.

(** The amplitudes of a single mode: pinv(Phi) x0. *)
Definition demo_amplitudes (Phi : matrix) (w : vector) (X : matrix)
  : option vector :=
  match demo_pinv Phi, to_option (first_column X) with
  | Some P, Some x0 => to_option (dot_vec P x0)
  | _, _ => None
  end.

#[export] Instance demo_externals : Externals G :=
  {| raw := matrix;
     _col_major_2darray := fun X => Some (X, None);
     _compute_svd := demo_svd;
     eig := demo_eig;
     pinv := demo_pinv;
     DMDOperator_compute_operator := demo_compute_operator;
     compute_amplitudes := demo_amplitudes |}.

Definition kwargs : operator_kwargs := Kwargs (RankInt (-1)) None.

(** One state driven by one control: x(t+1) = 0 x(t) + 1 u(t). *)
Definition snapshots : matrix := Mat 3 [[g 1; g 0; g 1]].
Definition control : matrix := Mat 2 [[g 0; g 1]].
Definition B1 : matrix := Mat 1 [[g 1]].

(** A control holding a single column, for three snapshots. *)
Definition short_control : matrix := Mat 1 [[g 1]].

(** A control holding three columns, for three snapshots. *)
Definition long_control : matrix := Mat 3 [[g 0; g 1; g 0]].

Definition fitted_unknown : DMDc :=
  snd (fit snapshots control None (DMDc_init (C := G) kwargs)).
Definition fitted_known : DMDc :=
  snd (fit snapshots control (Some B1) (DMDc_init (C := G) kwargs)).
Definition fitted_short : DMDc :=
  snd (fit snapshots short_control (Some B1) (DMDc_init (C := G) kwargs)).
Definition failed_long : DMDc :=
  snd (fit snapshots long_control None (DMDc_init (C := G) kwargs)).


(** A control operator with two columns, for a control of one row. *)
Definition wide_B : matrix := Mat 2 [[g 1; g 0]].

(** Another control sequence for three snapshots, equal to [control] in
    its first column. *)
Definition other_control : matrix := Mat 2 [[g 0; g 5]].

End Demo.

(** * Properties *)

(** ** Arrays *)

Section ArrayFacts.
Context {C : Type} {S : Scalar C}.
Local Abbreviation vector := (@vector C).
Local Abbreviation matrix := (@matrix C).
Local Abbreviation DMDOperator := (@DMDOperator C).
Local Abbreviation DMDc := (@DMDc C).

Lemma map_nth_seq (v : vector) (n : nat) :
  length v = n -> map (fun i => nth i v czero) (seq 0 n) = v.
Proof.
  intros <-. induction v as [|x v IH]; simpl; [reflexivity|].
  f_equal. rewrite <- seq_shift, map_map. exact IH.
Qed.

Lemma nth_map_rows {B} (f : vector -> B) (rows : list vector) (j : nat)
      (d : B) :
  j < length rows -> nth j (map f rows) d = f (nth j rows []).
Proof.
  intros Hj. rewrite (nth_indep _ d (f [])).
  - apply map_nth.
  - now rewrite length_map.
Qed.

(** The code conjugates the transposed array; entry by entry this is
    the conjugate transpose. *)
Lemma T_conj_hermitian (M : matrix) : T_conj M = hermitian M.
Proof.
  unfold T_conj, conj, transpose, hermitian, columns, col; simpl.
  f_equal. rewrite map_map. apply map_ext. intros j.
  now rewrite map_map.
Qed.

Lemma diag_rows_spec (n : nat) (v : vector) (i : nat) :
  diag_rows n i v =
  map (fun k => map (fun j => if k =? j then nth (k - i) v czero
                              else czero) (seq 0 n))
      (seq i (length v)).
Proof.
  revert i. induction v as [|x v IH]; intros i; simpl; [reflexivity|].
  f_equal.
  - unfold diag_row. apply map_ext. intros j.
    rewrite Nat.sub_diag, (Nat.eqb_sym j i). reflexivity.
  - rewrite IH. apply map_ext_in. intros k Hk. apply in_seq in Hk.
    apply map_ext. intros j.
    replace (k - i) with (Datatypes.S (k - Datatypes.S i)) by lia.
    reflexivity.
Qed.

(** [np.diag(np.reciprocal(sp))] is diag(1/sp). *)
Lemma diag_reciprocal (sp : vector) : diag (reciprocal sp) = diag_inv sp.
Proof.
  unfold diag, diag_inv, reciprocal. rewrite diag_rows_spec, length_map.
  f_equal. apply map_ext_in. intros k Hk. apply in_seq in Hk.
  apply map_ext. intros j. destruct (k =? j); [|reflexivity].
  rewrite Nat.sub_0_r.
  rewrite (nth_indep _ czero (creciprocal czero))
    by (rewrite length_map; lia).
  apply map_nth.
Qed.

(** The arrays handed to [array_T] are the columns of its result. *)
Lemma col_transpose (n : nat) (data : list vector) (j : nat) :
  same_length n data = true ->
  j < length data ->
  col j (transpose (Mat n data)) = nth j data [].
Proof.
  intros Hlen Hj. unfold col, transpose, columns; simpl.
  rewrite map_map.
  assert (Hn : length (nth j data []) = n).
  { unfold same_length in Hlen. rewrite forallb_forall in Hlen.
    apply Nat.eqb_eq, Hlen, nth_In, Hj. }
  transitivity (map (fun i => nth i (nth j data []) czero) (seq 0 n));
    [|exact (@map_nth_seq (nth j data []) n Hn)].
  apply map_ext. intros i. unfold col; simpl.
  now rewrite nth_map_rows.
Qed.

Lemma array_T_Ok (d0 : vector) (rest : list vector) (R : matrix) :
  array_T d0 rest = Ok R ->
  ncols R = Datatypes.S (length rest) /\
  nrows R = length d0 /\
  forall j, j <= length rest -> col j R = nth j (d0 :: rest) [].
Proof.
  unfold array_T. destruct (same_length (length d0) rest) eqn:Hlen;
    [|discriminate].
  intros [= <-]. split; [reflexivity|]. split.
  - unfold nrows, transpose, columns; simpl.
    now rewrite length_map, length_seq.
  - intros j Hj. apply col_transpose.
    + simpl. now rewrite Nat.eqb_refl.
    + simpl. lia.
Qed.

Lemma dot_Ok (A B M : matrix) :
  dot A B = Ok M -> ncols A = nrows B /\ M = mmul A B.
Proof.
  unfold dot. destruct (ncols A =? nrows B) eqn:Hs; [|discriminate].
  intros [= <-]. apply Nat.eqb_eq in Hs. auto.
Qed.

(** A chain of [.dot] calls that went through computed the product of
    its factors, and the factors were conformable. *)
Lemma chain_Ok (factors : list matrix) (A M : matrix) :
  chain (Ok A) factors = Ok M ->
  conformable A factors /\ M = product A factors.
Proof.
  revert A. induction factors as [|B rest IH]; intros A; simpl.
  - intros [= <-]. auto.
  - unfold dot. destruct (ncols A =? nrows B) eqn:Hs.
    + intros H. apply IH in H. apply Nat.eqb_eq in Hs. tauto.
    + assert (Herr : forall l, chain (Err ValueError) l = Err ValueError)
        by (induction l; simpl; auto).
      rewrite Herr. discriminate.
Qed.

Lemma vstack_Ok (A B omega : matrix) :
  vstack A B = Ok omega ->
  ncols A = ncols B /\ ncols omega = ncols A /\
  mrows omega = mrows A ++ mrows B.
Proof.
  unfold vstack. destruct (ncols A =? ncols B) eqn:Hs; [|discriminate].
  intros [= <-]. apply Nat.eqb_eq in Hs. auto.
Qed.

Lemma rows_split (n : nat) (M : matrix) :
  mrows M = mrows (rows_upto n M) ++ mrows (rows_from n M) /\
  nrows (rows_upto n M) = Nat.min n (nrows M).
Proof.
  unfold rows_upto, rows_from, nrows; simpl. split.
  - symmetry. apply firstn_skipn.
  - apply length_firstn.
Qed.

End ArrayFacts.

(** ** Running a method *)

Section MethodFacts.
Context {St : Type}.

Lemma bind_Ok {A B} (m : M St A) (k : A -> M St B) s b s' :
  bind m k s = (Ok b, s') ->
  exists a s1, m s = (Ok a, s1) /\ k a s1 = (Ok b, s').
Proof.
  unfold bind. destruct (m s) as [[a|e] s1]; [eauto|discriminate].
Qed.

Lemma pure_run {A} (r x : result A) (s s' : St) :
  pure r s = (x, s') -> r = x /\ s' = s.
Proof. unfold pure. intros [= <- <-]. auto. Qed.

Lemma ret_run {A} (a : A) (x : result A) (s s' : St) :
  ret a s = (x, s') -> x = Ok a /\ s' = s.
Proof. unfold ret. intros [= <- <-]. auto. Qed.

Lemma assign_run (f : St -> St) (x : result unit) (s s' : St) :
  assign f s = (x, s') -> x = Ok tt /\ s' = f s.
Proof. unfold assign. intros [= <- <-]. auto. Qed.

Lemma read_run {A} (f : St -> A) (x : result A) (s s' : St) :
  read f s = (x, s') -> x = Ok (f s) /\ s' = s.
Proof. unfold read. intros [= <- <-]. auto. Qed.

Lemma attr_Ok {A} (f : St -> option A) (a : A) (s s' : St) :
  attr f s = (Ok a, s') -> f s = Some a /\ s' = s.
Proof.
  unfold attr, not_None. destruct (f s); intros [= <- <-]; auto.
Qed.

End MethodFacts.

Lemma of_external_Ok {A} (o : option A) (a : A) :
  of_external o = Ok a -> o = Some a.
Proof. destruct o; simpl; congruence. Qed.

Lemma not_None_Ok {A} (o : option A) (a : A) :
  not_None o = Ok a -> o = Some a.
Proof. destruct o; simpl; congruence. Qed.

(** Reads attributes through the assignments made before. *)
Ltac fields :=
  cbn [_Atilde _dmd_operator_kwargs original_time dmd_time _b _snapshots
       _snapshots_shape _B _controlin _controlin_shape _basis
       set__Atilde set_original_time set_dmd_time set__b set__snapshots
       set__snapshots_shape set__B set__controlin set__controlin_shape
       set__basis
       op_class _svd_rank _svd_rank_omega op_Atilde _eigenvalues
       _eigenvectors _modes _Lambda
       set_op_Atilde set__eigenvalues set__eigenvectors set__modes
       set__Lambda] in *.

(** Picks the operator object the fitted model holds. *)
Ltac exists_operator :=
  match goal with
  | |- context [Model (Some ?o) _ _ _ _ _ _ _ _ _ _] => exists o
  end.

(** Takes a successful run apart, statement by statement. *)
Ltac run_ok :=
  repeat match goal with
    | H : bind _ _ _ = (Ok _, _) |- _ =>
        apply bind_Ok in H; destruct H as (? & ? & ? & H)
    | H : pure _ _ = (_, _) |- _ =>
        apply pure_run in H; destruct H as [H ?]; subst
    | H : ret _ _ = (_, _) |- _ =>
        apply ret_run in H; destruct H as [H ?]; subst
    | H : assign _ _ = (_, _) |- _ =>
        apply assign_run in H; destruct H as [H ?]; subst
    | H : read _ _ = (_, _) |- _ =>
        apply read_run in H; destruct H as [H ?]; subst
    | H : attr _ _ = (Ok _, _) |- _ =>
        apply attr_Ok in H; destruct H as [H ?]; subst
    | H : of_external _ = Ok _ |- _ => apply of_external_Ok in H
    | H : not_None _ = Ok _ |- _ => apply not_None_Ok in H
    | H : Ok _ = Ok _ |- _ => injection H as H; subst
    | H : Some _ = Some _ |- _ => injection H as H; subst
    | H : (let (_, _) := ?p in _) _ = (Ok _, _) |- _ => is_var p; destruct p
    | H : (let '(_, _) := ?p in _) _ = (Ok _, _) |- _ => is_var p; destruct p
    end.

Section BuilderFacts.
Context {C : Type} {S : Scalar C} {E : Externals C}.
Local Abbreviation vector := (@vector C).
Local Abbreviation matrix := (@matrix C).
Local Abbreviation DMDOperator := (@DMDOperator C).
Local Abbreviation DMDc := (@DMDc C).

(** What a successful run of the unknown-B builder has computed. *)
Lemma unknown_builder_Ok X Y controlin n o basis B o' :
  DMDBUnknownOperator_compute_operator X Y controlin n o
  = (Ok (basis, B), o') ->
  exists omega Up sp Vp Ur sr Vr Atilde w W Phi Btilde,
    vstack X controlin = Ok omega /\
    _compute_svd omega (_svd_rank_omega o) = Some (Up, sp, Vp) /\
    _compute_svd Y (_svd_rank o) = Some (Ur, sr, Vr) /\
    chain (Ok (T_conj Ur))
          [Y; Vp; diag (reciprocal sp); T_conj (rows_upto n Up); Ur]
    = Ok Atilde /\
    eig Atilde = Some (w, W) /\
    chain (Ok Y)
          [Vp; diag (reciprocal sp); T_conj (rows_upto n Up); Ur; W]
    = Ok Phi /\
    chain (Ok (T_conj Ur))
          [Y; Vp; diag (reciprocal sp); T_conj (rows_from n Up)]
    = Ok Btilde /\
    dot Ur Btilde = Ok B /\
    basis = Ur /\
    o' = Operator (op_class o) (_svd_rank o) (_svd_rank_omega o)
                  (Some Atilde) (Some w) (Some W) (Some Phi) (Some w).
Proof.
  unfold DMDBUnknownOperator_compute_operator, _compute_modes_and_Lambda,
    _compute_eigenquantities, eigenvectors, eigenvalues.
  intros H. run_ok. fields. run_ok.
  do 12 eexists. repeat split; cbn [chain]; eauto.
  match goal with
  | Hc : _ = Ok ?P, Hd : dot ?P _ = Ok _ |- _ => rewrite Hc; exact Hd
  end.
Qed.

Lemma on_operator_Ok {A} (m : M DMDOperator A) s a s' :
  on_operator m s = (Ok a, s') ->
  exists o o', _Atilde s = Some o /\ m o = (Ok a, o') /\
               s' = set__Atilde (Some o') s.
Proof.
  unfold on_operator. destruct (_Atilde s) as [o|]; [|discriminate].
  destruct (m o) as [r o'] eqn:Hm. intros [= -> <-]. eauto.
Qed.

Lemma known_builder_Ok X Y B controlin o U sv V o' :
  DMDBKnownOperator_compute_operator X Y B controlin o
  = (Ok (U, sv, V), o') ->
  exists P Y',
    dot B controlin = Ok P /\ msub Y P = Ok Y' /\
    DMDOperator_compute_operator X Y' o = (Some (U, sv, V), o').
Proof.
  unfold DMDBKnownOperator_compute_operator. intros H.
  apply bind_Ok in H. destruct H as (Y' & o1 & HY & H).
  apply pure_run in HY. destruct HY as [HY ->].
  destruct (dot B controlin) as [P|] eqn:HP; [|discriminate].
  cbn [rbind] in HY.
  destruct (DMDOperator_compute_operator X Y' o) as [r o2] eqn:Hc.
  injection H as Hr ->.
  apply of_external_Ok in Hr. subst. eauto.
Qed.

(** What a successful [fit] without B has done. *)
Lemma fit_unknown_Ok X I s s' :
  fit X I None s = (Ok tt, s') ->
  exists snapshots shp controlin cshp basis B o' Phi w b,
    _col_major_2darray X = Some (snapshots, shp) /\
    _col_major_2darray I = Some (controlin, cshp) /\
    DMDBUnknownOperator_compute_operator
      (cols_but_last snapshots) (cols_but_first snapshots) controlin
      (nrows snapshots)
      (DMDControlOperator_init BUnknown (_dmd_operator_kwargs s))
    = (Ok (basis, B), o') /\
    _modes o' = Some Phi /\ _eigenvalues o' = Some w /\
    compute_amplitudes Phi w snapshots = Some b /\
    s' = Model (Some o') (_dmd_operator_kwargs s)
               (Some (fit_time snapshots)) (Some (fit_time snapshots))
               (Some b) (Some snapshots) shp (Some B) (Some controlin)
               cshp (Some basis).
Proof.
  unfold fit, _compute_amplitudes, DMDc_modes, DMDc_eigs, modes,
    eigenvalues.
  intros H. run_ok. fields. run_ok.
  do 3 match goal with
       | H : on_operator _ _ = (Ok _, _) |- _ =>
           apply on_operator_Ok in H;
           destruct H as (? & ? & ? & ? & ?); subst; fields
       end.
  run_ok.
  do 10 eexists. do 6 (split; [eassumption|]). reflexivity.
Qed.

(** What a successful [fit] with a given B has done. *)
Lemma fit_known_Ok X I B s s' :
  fit X I (Some B) s = (Ok tt, s') ->
  exists snapshots shp controlin cshp U sv V o' Phi w b,
    _col_major_2darray X = Some (snapshots, shp) /\
    _col_major_2darray I = Some (controlin, cshp) /\
    DMDBKnownOperator_compute_operator
      (cols_but_last snapshots) (cols_but_first snapshots) B controlin
      (DMDControlOperator_init BKnown (_dmd_operator_kwargs s))
    = (Ok (U, sv, V), o') /\
    _modes o' = Some Phi /\ _eigenvalues o' = Some w /\
    compute_amplitudes Phi w snapshots = Some b /\
    s' = Model (Some o') (_dmd_operator_kwargs s)
               (Some (fit_time snapshots)) (Some (fit_time snapshots))
               (Some b) (Some snapshots) shp (Some B) (Some controlin)
               cshp (Some U).
Proof.
  unfold fit, _compute_amplitudes, DMDc_modes, DMDc_eigs, modes,
    eigenvalues.
  intros H. run_ok. fields. run_ok.
  do 3 match goal with
       | H : on_operator _ _ = (Ok _, _) |- _ =>
           apply on_operator_Ok in H;
           destruct H as (? & ? & ? & ? & ?); subst; fields
       end.
  run_ok.
  do 11 eexists. do 6 (split; [eassumption|]). reflexivity.
Qed.

End BuilderFacts.

(** ** The unknown-B and known-B operators, as [fit] runs them *)

Section Operators.
Context {C : Type} {S : Scalar C} {E : Externals C}.
Local Abbreviation vector := (@vector C).
Local Abbreviation matrix := (@matrix C).
Local Abbreviation DMDOperator := (@DMDOperator C).
Local Abbreviation DMDc := (@DMDc C).

Lemma msub_same_shape (A B : matrix) :
  wf A -> wf B -> nrows A = nrows B -> ncols A = ncols B ->
  msub A B = Ok (entrywise_sub A B).
Proof.
  intros HA HB Hr Hc. unfold msub, entrywise_sub, broadcast_dim.
  rewrite <- Hr, <- Hc, !Nat.eqb_refl. do 2 f_equal.
  apply map_ext_in. intros i Hi. apply in_seq in Hi.
  assert (HrowA : stretch_row A i = nth i (mrows A) []).
  { unfold stretch_row. destruct (nrows A =? 1) eqn:H1; [|reflexivity].
    apply Nat.eqb_eq in H1. replace i with 0 by lia. reflexivity. }
  assert (HrowB : stretch_row B i = nth i (mrows B) []).
  { unfold stretch_row. destruct (nrows B =? 1) eqn:H1; [|reflexivity].
    apply Nat.eqb_eq in H1. replace i with 0 by lia. reflexivity. }
  rewrite HrowA, HrowB.
  apply map_ext_in. intros j Hj. apply in_seq in Hj.
  assert (Hst : forall v : vector,
             length v = ncols A -> stretch v j = nth j v czero).
  { intros v Hv. unfold stretch. destruct (length v =? 1) eqn:H1;
      [|reflexivity].
    apply Nat.eqb_eq in H1. replace j with 0 by lia. reflexivity. }
  assert (Hlen : forall M : matrix,
             wf M -> i < nrows M ->
             length (nth i (mrows M) []) = ncols M).
  { intros M HM HiM. unfold wf in HM. rewrite Forall_forall in HM.
    apply HM, nth_In, HiM. }
  rewrite !Hst; [reflexivity| |].
  - rewrite Hc. apply Hlen; [exact HB|lia].
  - apply Hlen; [exact HA|lia].
Qed.

(** C1: a fit without B stacks X_prev over the control matrix (state
    rows first, control rows below), takes the SVD of that stack at rank
    svd_rank_omega, splits U_p into its first n_states rows and the
    rest, takes the SVD of Y_next at rank svd_rank, and sets the reduced
    state operator to Ur^H . Y . Vp . diag(1/sp) . Up1^H . Ur. *)
Theorem C1_unknown_B_state_operator (X I : raw) (s s' : DMDc) :
  fit X I None s = (Ok tt, s') ->
  exists snapshots shp controlin cshp omega Up sp Vp Ur sr Vr op,
    _col_major_2darray X = Some (snapshots, shp) /\
    _col_major_2darray I = Some (controlin, cshp) /\
    let X_prev := cols_but_last snapshots in
    let Y_next := cols_but_first snapshots in
    let n_states := nrows snapshots in
    let kw := _dmd_operator_kwargs s in
    let Up1 := rows_upto n_states Up in
    let Up2 := rows_from n_states Up in
    vstack X_prev controlin = Ok omega /\
    mrows omega = mrows X_prev ++ mrows controlin /\
    _compute_svd omega
      (match kw_svd_rank_omega kw with
       | Some r => r
       | None => RankInt (-1)
       end) = Some (Up, sp, Vp) /\
    mrows Up = mrows Up1 ++ mrows Up2 /\
    nrows Up1 = Nat.min n_states (nrows Up) /\
    _compute_svd Y_next (kw_svd_rank kw) = Some (Ur, sr, Vr) /\
    conformable (hermitian Ur)
                [Y_next; Vp; diag_inv sp; hermitian Up1; Ur] /\
    _Atilde s' = Some op /\
    op_class op = BUnknown /\
    op_Atilde op = Some (reduced_state_operator Ur Y_next Vp sp Up1).
Proof.
  intros Hfit.
  apply fit_unknown_Ok in Hfit.
  destruct Hfit as (snapshots & shp & controlin & cshp & basis & B & o'
                    & Phi & w & b & HX & HI & Hrun & _ & _ & _ & ->).
  apply unknown_builder_Ok in Hrun.
  destruct Hrun as (omega & Up & sp & Vp & Ur & sr & Vr & Atilde & w' & W
                    & Phi' & Btilde & Hom & Hsvd1 & Hsvd2 & HA & _ & _ & _
                    & _ & _ & ->).
  rewrite !T_conj_hermitian, diag_reciprocal in HA.
  apply chain_Ok in HA. destruct HA as [Hconf ->].
  exists snapshots, shp, controlin, cshp, omega, Up, sp, Vp, Ur, sr, Vr.
  eexists. split; [exact HX|]. split; [exact HI|].
  cbv zeta. split; [exact Hom|].
  split; [apply (vstack_Ok _ _ Hom)|].
  split; [exact Hsvd1|].
  split; [apply rows_split|]. split; [apply rows_split|].
  split; [exact Hsvd2|]. split; [exact Hconf|].
  split; [reflexivity|]. split; reflexivity.
Qed.

(** C2: in the unknown-B builder the eigenpairs of Atilde are solved,
    the modes are Y . Vp . diag(1/sp) . Up1^H . Ur . W, and Lambda is the
    vector of eigenvalues, one for each column of the modes (the
    eigen-solver returning one eigenvalue for each eigenvector). *)
Theorem C2_unknown_B_modes_and_Lambda (X I : raw) (s s' : DMDc) :
  (forall A w W, eig A = Some (w, W) -> length w = ncols W) ->
  fit X I None s = (Ok tt, s') ->
  exists snapshots shp controlin cshp omega Up sp Vp Ur sr Vr op
         Atilde w W,
    _col_major_2darray X = Some (snapshots, shp) /\
    _col_major_2darray I = Some (controlin, cshp) /\
    let X_prev := cols_but_last snapshots in
    let Y_next := cols_but_first snapshots in
    let Up1 := rows_upto (nrows snapshots) Up in
    vstack X_prev controlin = Ok omega /\
    _compute_svd omega (_svd_rank_omega op) = Some (Up, sp, Vp) /\
    _compute_svd Y_next (_svd_rank op) = Some (Ur, sr, Vr) /\
    _Atilde s' = Some op /\
    op_Atilde op = Some Atilde /\
    eig Atilde = Some (w, W) /\
    _eigenvalues op = Some w /\
    _eigenvectors op = Some W /\
    conformable Y_next [Vp; diag_inv sp; hermitian Up1; Ur; W] /\
    _modes op = Some (control_modes Y_next Vp sp Up1 Ur W) /\
    _Lambda op = Some w /\
    length w = ncols (control_modes Y_next Vp sp Up1 Ur W).
Proof.
  intros Heig Hfit.
  apply fit_unknown_Ok in Hfit.
  destruct Hfit as (snapshots & shp & controlin & cshp & basis & B & o'
                    & Phi & w & b & HX & HI & Hrun & _ & _ & _ & ->).
  apply unknown_builder_Ok in Hrun.
  destruct Hrun as (omega & Up & sp & Vp & Ur & sr & Vr & Atilde & w' & W
                    & Phi' & Btilde & Hom & Hsvd1 & Hsvd2 & _ & Hw & HPhi
                    & _ & _ & _ & ->).
  rewrite !T_conj_hermitian, diag_reciprocal in HPhi.
  apply chain_Ok in HPhi. destruct HPhi as [Hconf ->].
  exists snapshots, shp, controlin, cshp, omega, Up, sp, Vp, Ur, sr, Vr.
  exists_operator. exists Atilde, w', W.
  split; [exact HX|]. split; [exact HI|]. cbv zeta.
  split; [exact Hom|]. split; [exact Hsvd1|]. split; [exact Hsvd2|].
  split; [reflexivity|]. split; [reflexivity|]. split; [exact Hw|].
  split; [reflexivity|]. split; [reflexivity|]. split; [exact Hconf|].
  split; [reflexivity|]. split; [reflexivity|].
  exact (Heig _ _ _ Hw).
Qed.

(** C3: in the unknown-B path the reduced control operator is
    Btilde = Ur^H . Y . Vp . diag(1/sp) . Up2^H; it is lifted to
    B_full = Ur . Btilde, the builder returns (Ur, B_full), and [fit]
    stores Ur as the basis and B_full as B. *)
Theorem C3_unknown_B_control_operator (X I : raw) (s s' : DMDc) :
  fit X I None s = (Ok tt, s') ->
  exists snapshots shp controlin cshp omega Up sp Vp Ur sr Vr op,
    _col_major_2darray X = Some (snapshots, shp) /\
    _col_major_2darray I = Some (controlin, cshp) /\
    let X_prev := cols_but_last snapshots in
    let Y_next := cols_but_first snapshots in
    let Up2 := rows_from (nrows snapshots) Up in
    let Btilde := reduced_control_operator Ur Y_next Vp sp Up2 in
    let B_full := mmul Ur Btilde in
    vstack X_prev controlin = Ok omega /\
    _compute_svd omega (_svd_rank_omega op) = Some (Up, sp, Vp) /\
    _compute_svd Y_next (_svd_rank op) = Some (Ur, sr, Vr) /\
    conformable (hermitian Ur) [Y_next; Vp; diag_inv sp; hermitian Up2] /\
    ncols Ur = nrows Btilde /\
    DMDBUnknownOperator_compute_operator
      X_prev Y_next controlin (nrows snapshots)
      (DMDControlOperator_init BUnknown (_dmd_operator_kwargs s))
    = (Ok (Ur, B_full), op) /\
    _Atilde s' = Some op /\
    _basis s' = Some Ur /\
    _B s' = Some B_full.
Proof.
  intros Hfit.
  apply fit_unknown_Ok in Hfit.
  destruct Hfit as (snapshots & shp & controlin & cshp & basis & B & o'
                    & Phi & w & b & HX & HI & Hrun & _ & _ & _ & ->).
  pose proof Hrun as Hrun'.
  apply unknown_builder_Ok in Hrun.
  destruct Hrun as (omega & Up & sp & Vp & Ur & sr & Vr & Atilde & w' & W
                    & Phi' & Btilde & Hom & Hsvd1 & Hsvd2 & _ & _ & _
                    & HB & Hlift & -> & ->).
  rewrite !T_conj_hermitian, diag_reciprocal in HB.
  apply chain_Ok in HB. destruct HB as [Hconf ->].
  apply dot_Ok in Hlift. destruct Hlift as [Hshape ->].
  exists snapshots, shp, controlin, cshp, omega, Up, sp, Vp, Ur, sr, Vr.
  exists_operator. split; [exact HX|]. split; [exact HI|]. cbv zeta.
  split; [exact Hom|]. split; [exact Hsvd1|]. split; [exact Hsvd2|].
  split; [exact Hconf|]. split; [exact Hshape|].
  split; [exact Hrun'|]. split; [reflexivity|]. split; reflexivity.
Qed.

(** C4: a fit with a given B computes Y' = Y_next - B . U_ctrl, hands
    (X_prev, Y') to the operator without control, stores the basis that
    operator returns as the basis of the model, and stores the given B
    as it is. *)
Theorem C4_known_B_delegates (X I : raw) (B : matrix) (s s' : DMDc) :
  fit X I (Some B) s = (Ok tt, s') ->
  exists snapshots shp controlin cshp P Y' U sv V op,
    _col_major_2darray X = Some (snapshots, shp) /\
    _col_major_2darray I = Some (controlin, cshp) /\
    let X_prev := cols_but_last snapshots in
    let Y_next := cols_but_first snapshots in
    ncols B = nrows controlin /\
    P = mmul B controlin /\
    msub Y_next P = Ok Y' /\
    DMDOperator_compute_operator
      X_prev Y'
      (DMDControlOperator_init BKnown (_dmd_operator_kwargs s))
    = (Some (U, sv, V), op) /\
    _Atilde s' = Some op /\
    _basis s' = Some U /\
    _B s' = Some B.
Proof.
  intros Hfit.
  apply fit_known_Ok in Hfit.
  destruct Hfit as (snapshots & shp & controlin & cshp & U & sv & V & o'
                    & Phi & w & b & HX & HI & Hrun & _ & _ & _ & ->).
  apply known_builder_Ok in Hrun.
  destruct Hrun as (P & Y' & HP & HY & Hdel).
  apply dot_Ok in HP. destruct HP as [Hshape ->].
  exists snapshots, shp, controlin, cshp, (mmul B controlin), Y', U, sv, V.
  eexists. split; [exact HX|]. split; [exact HI|]. cbv zeta.
  split; [exact Hshape|]. split; [reflexivity|]. split; [exact HY|].
  split; [exact Hdel|]. split; [reflexivity|]. split; reflexivity.
Qed.

End Operators.

(** ** Methods that only read, and the exceptions a method can raise *)

Section Combinators.
Context {St : Type}.

Lemma readonly_bind {A B} (m : M St A) (k : A -> M St B) :
  readonly m -> (forall a, readonly (k a)) -> readonly (bind m k).
Proof.
  intros Hm Hk s r s'. unfold bind.
  destruct (m s) as [[a|e] s1] eqn:Hms; apply Hm in Hms; subst.
  - apply Hk.
  - intros [= _ <-]. reflexivity.
Qed.

Lemma readonly_pure {A} (r : result A) : readonly (@pure St A r).
Proof. intros s r' s' [= _ <-]. reflexivity. Qed.

Lemma readonly_ret {A} (a : A) : readonly (@ret St A a).
Proof. intros s r' s' [= _ <-]. reflexivity. Qed.

Lemma readonly_raise {A} (e : exn) : readonly (@raise St A e).
Proof. intros s r' s' [= _ <-]. reflexivity. Qed.

Lemma readonly_read {A} (f : St -> A) : readonly (read f).
Proof. intros s r' s' [= _ <-]. reflexivity. Qed.

Lemma readonly_attr {A} (f : St -> option A) : readonly (attr f).
Proof. intros s r' s' [= _ <-]. reflexivity. Qed.

Lemma avoids_bind {A B} e (m : M St A) (k : A -> M St B) :
  avoids e m -> (forall a, avoids e (k a)) -> avoids e (bind m k).
Proof.
  intros Hm Hk s s'. unfold bind.
  destruct (m s) as [[a|e1] s1] eqn:Hms.
  - apply Hk.
  - intros [= -> ->]. exact (Hm _ _ Hms).
Qed.

Lemma avoids_pure {A} e (r : result A) :
  r <> Err e -> avoids e (@pure St A r).
Proof. intros Hr s s' [= H _]. contradiction. Qed.

Lemma avoids_ret {A} e (a : A) : avoids e (@ret St A a).
Proof. intros s s' [= ]. Qed.

Lemma avoids_raise {A} e e' : e' <> e -> avoids e (@raise St A e').
Proof. intros Hne s s' [= H _]. contradiction. Qed.

Lemma avoids_attr {A} e (f : St -> option A) :
  e <> AttributeError -> avoids e (attr f).
Proof.
  intros Hne s s'. unfold attr, not_None.
  destruct (f s); intros [= H]; congruence.
Qed.

End Combinators.

(** The exceptions of the array operations and of the imported routines
    are not the size error of [reconstructed_data]. *)
Section NotSizeError.
Context {C : Type} {S : Scalar C}.
Local Abbreviation vector := (@vector C).
Local Abbreviation matrix := (@matrix C).
Local Abbreviation DMDOperator := (@DMDOperator C).
Local Abbreviation DMDc := (@DMDc C).

Lemma of_external_size {A} (o : option A) :
  of_external o <> Err ReconstructionSizeError.
Proof. destruct o; simpl; congruence. Qed.

Lemma not_None_size {A} (o : option A) :
  not_None o <> Err ReconstructionSizeError.
Proof. destruct o; simpl; congruence. Qed.

Lemma dot_size (A B : matrix) : dot A B <> Err ReconstructionSizeError.
Proof. unfold dot. destruct (_ =? _); congruence. Qed.

Lemma dot_vec_size (A : matrix) (v : vector) :
  dot_vec A v <> Err ReconstructionSizeError.
Proof. unfold dot_vec. destruct (_ =? _); congruence. Qed.

Lemma vadd_size (u v : vector) : vadd u v <> Err ReconstructionSizeError.
Proof. unfold vadd. destruct (broadcast_dim _ _); congruence. Qed.

Lemma first_column_size (M : matrix) :
  first_column M <> Err ReconstructionSizeError.
Proof. unfold first_column. destruct (_ =? _); congruence. Qed.

Lemma array_T_size (d : vector) (rest : list vector) :
  array_T d rest <> Err ReconstructionSizeError.
Proof. unfold array_T. destruct (same_length _ _); congruence. Qed.

Lemma old_div_size (a b : Z) :
  (if (b =? 0)%Z then Err ZeroDivisionError else Ok (a / b)%Z)
  <> Err ReconstructionSizeError.
Proof. destruct (b =? 0)%Z; congruence. Qed.

End NotSizeError.

(** ** Reconstruction *)

Section Reconstruction.
Context {C : Type} {S : Scalar C} {E : Externals C}.
Local Abbreviation vector := (@vector C).
Local Abbreviation matrix := (@matrix C).
Local Abbreviation DMDOperator := (@DMDOperator C).
Local Abbreviation DMDc := (@DMDc C).

Lemma set__Atilde_same (s : DMDc) : set__Atilde (_Atilde s) s = s.
Proof. destruct s; reflexivity. Qed.

(** Reading an attribute of the operator changes nothing. *)
Lemma on_operator_attr {A} (f : DMDOperator -> option A) s r s' :
  on_operator (attr f) s = (r, s') -> s' = s.
Proof.
  unfold on_operator, attr. destruct (_Atilde s) as [o|] eqn:Ho.
  - intros [= _ <-]. rewrite <- Ho. apply set__Atilde_same.
  - intros [= _ <-]. reflexivity.
Qed.

(** The loop: every array it appends is A . data[i] + B . u, and the
    model is not written. *)
Lemma propagate_Ok (A : matrix) (us : list vector) :
  forall (i : nat) (data out : list vector) (s s' : DMDc),
    length data = i + 1 ->
    propagate A us i data s = (Ok out, s') ->
    s' = s /\
    length out = length data + length us /\
    (forall j, j <= i -> nth j out [] = nth j data []) /\
    (forall j, j < length us ->
       exists B Ax Bu,
         _B s = Some B /\
         dot_vec A (nth (i + j) out []) = Ok Ax /\
         dot_vec B (nth j us []) = Ok Bu /\
         vadd Ax Bu = Ok (nth (i + j + 1) out [])).
Proof.
  induction us as [|u us IH]; intros i data out s s' Hlen Hrun.
  - simpl in Hrun. apply ret_run in Hrun. destruct Hrun as [[= <-] ->].
    split; [reflexivity|]. split; [simpl; lia|].
    split; [reflexivity|]. intros j Hj. simpl in Hj. lia.
  - cbn [propagate] in Hrun. run_ok.
    destruct (nth_error data i) as [xi|] eqn:Hx; [|discriminate].
    run_ok.
    match goal with
    | H : propagate _ _ _ _ _ = _ |- _ =>
        apply IH in H; [|rewrite length_app; simpl; lia];
        destruct H as (-> & Hout & Hkeep & Hstep)
    end.
    rewrite length_app in Hout. simpl in Hout.
    split; [reflexivity|].
    split; [simpl; lia|].
    split.
    + intros j Hj. rewrite Hkeep by lia. apply app_nth1. lia.
    + intros j Hj. destruct j as [|j].
      * do 3 eexists. split; [eassumption|].
        rewrite Nat.add_0_r, !Hkeep by lia.
        rewrite app_nth1 by lia.
        rewrite (nth_error_nth _ _ _ Hx).
        split; [eassumption|]. split; [eassumption|].
        rewrite app_nth2 by lia.
        replace (i + 1 - length data) with 0 by lia. simpl. assumption.
      * simpl in Hj.
        destruct (Hstep j) as (B & Ax & Bu & HB & Hs1 & Hs2 & Hs3); [lia|].
        exists B, Ax, Bu. split; [exact HB|].
        replace (i + Datatypes.S j) with (Datatypes.S i + j) by lia.
        auto.
Qed.


Lemma readonly_on_operator_attr {A} (f : DMDOperator -> option A) :
  readonly (on_operator (attr f)).
Proof. intros s r s'. apply on_operator_attr. Qed.

Lemma avoids_on_operator_attr {A} e (f : DMDOperator -> option A) :
  e <> AttributeError -> avoids e (on_operator (attr f)).
Proof.
  intros Hne s s'. unfold on_operator, attr, not_None.
  destruct (_Atilde s) as [o|]; [destruct (f o)|]; intros [= H];
    congruence.
Qed.

Create HintDb methods.
Hint Resolve readonly_bind readonly_pure readonly_ret readonly_raise
     readonly_read readonly_attr readonly_on_operator_attr : methods.
Hint Resolve avoids_bind avoids_pure avoids_ret avoids_raise avoids_attr
     avoids_on_operator_attr of_external_size not_None_size dot_size
     dot_vec_size vadd_size first_column_size array_T_size old_div_size
  : methods.

Lemma readonly_scaled_eigs : readonly scaled_eigs.
Proof.
  unfold scaled_eigs, DMDc_eigs, eigenvalues. auto 10 with methods.
Qed.

Lemma avoids_scaled_eigs : avoids ReconstructionSizeError scaled_eigs.
Proof.
  unfold scaled_eigs, DMDc_eigs, eigenvalues, old_div.
  repeat (apply avoids_bind; [|intros ?]); auto with methods;
    try (apply avoids_attr; congruence);
    try (apply avoids_on_operator_attr; congruence).
Qed.

Lemma readonly_dynamics_shape_1 : readonly (@dynamics_shape_1 C).
Proof. unfold dynamics_shape_1. auto 10 with methods. Qed.

Lemma readonly_propagate A us :
  forall i data, readonly (propagate A us i data).
Proof.
  induction us as [|u us IH]; intros i data; cbn [propagate];
    auto 10 with methods.
Qed.

Lemma avoids_propagate A us :
  forall i data, avoids ReconstructionSizeError (propagate A us i data).
Proof.
  induction us as [|u us IH]; intros i data; cbn [propagate].
  - apply avoids_ret.
  - repeat (apply avoids_bind; [|intros ?]); auto with methods.
    + apply avoids_pure. destruct (nth_error data i); congruence.
    + apply avoids_attr. congruence.
Qed.

Lemma readonly_body controlin : readonly (reconstructed_data_body controlin).
Proof.
  unfold reconstructed_data_body, DMDc_modes, modes.
  repeat (apply readonly_bind; [|intros ?]);
    auto using readonly_propagate with methods.
  - unfold DMDc_eigs, eigenvalues. auto with methods.
  - match goal with
    | |- readonly (match ?d with _ => _ end) => destruct d
    end; auto with methods.
Qed.

Lemma avoids_body controlin :
  avoids ReconstructionSizeError (reconstructed_data_body controlin).
Proof.
  unfold reconstructed_data_body, DMDc_modes, modes.
  repeat (apply avoids_bind; [|intros ?]);
    auto using avoids_propagate with methods;
    try (apply avoids_attr; congruence);
    try (unfold DMDc_eigs, eigenvalues;
         apply avoids_on_operator_attr; congruence).
  - apply avoids_pure, old_div_size.
  - match goal with
    | |- avoids _ (match ?d with _ => _ end) => destruct d
    end; auto with methods.
    apply avoids_raise. congruence.
Qed.


(** The head of [reconstructed_data]: choosing the control sequence,
    reading the horizon, and the size check. *)
Lemma reconstructed_data_head ci s controlin horizon :
  control_used ci s = Ok controlin ->
  dynamics_shape_1 s = (Ok horizon, s) ->
  reconstructed_data ci s =
  (if negb (Z.of_nat (ncols controlin) =? horizon - 1)%Z
   then raise ReconstructionSizeError
   else reconstructed_data_body controlin) s.
Proof.
  intros Hc Hd. unfold reconstructed_data, control_used in *.
  destruct ci as [c|].
  - destruct (_col_major_2darray c) as [[m sh]|]; [|discriminate].
    injection Hc as ->.
    cbn [bind pure of_external ret not_None fst]. unfold bind at 1.
    rewrite Hd. reflexivity.
  - apply not_None_Ok in Hc.
    cbn [bind read ret pure]. rewrite Hc. cbn [not_None].
    unfold bind at 1. rewrite Hd. reflexivity.
Qed.

Lemma reconstructed_data_Ok ci s R s' :
  reconstructed_data ci s = (Ok R, s') ->
  exists controlin horizon,
    control_used ci s = Ok controlin /\
    dynamics_shape_1 s = (Ok horizon, s) /\
    Z.of_nat (ncols controlin) = (horizon - 1)%Z /\
    reconstructed_data_body controlin s = (Ok R, s').
Proof.
  intros H.
  assert (Hhead : exists controlin horizon,
             control_used ci s = Ok controlin /\
             dynamics_shape_1 s = (Ok horizon, s)).
  { unfold reconstructed_data, control_used in *.
    apply bind_Ok in H. destruct H as ([c sh] & s1 & Hc & H).
    apply bind_Ok in H. destruct H as (controlin & s2 & Hn & H).
    apply bind_Ok in H. destruct H as (horizon & s3 & Hd & _).
    apply pure_run in Hn. destruct Hn as [Hn ->].
    apply not_None_Ok in Hn. subst c.
    assert (s3 = s1) as -> by (eapply readonly_dynamics_shape_1; exact Hd).
    exists controlin, horizon.
    destruct ci as [c|]; run_ok;
      match goal with
      | Hp : _ = Some _ |- _ => rewrite Hp
      | Hp : Some _ = _ |- _ => rewrite <- Hp
      end; auto. }
  destruct Hhead as (controlin & horizon & Hc & Hd).
  exists controlin, horizon. split; [exact Hc|]. split; [exact Hd|].
  rewrite (reconstructed_data_head _ Hc Hd) in H.
  destruct (Z.of_nat (ncols controlin) =? horizon - 1)%Z eqn:Hk;
    cbn [negb] in H; [|discriminate].
  apply Z.eqb_eq in Hk. auto.
Qed.

Lemma dot_vec_Ok (A : matrix) (v w : vector) :
  dot_vec A v = Ok w -> ncols A = length v /\ w = mvmul A v.
Proof.
  unfold dot_vec. destruct (ncols A =? length v) eqn:Hs; [|discriminate].
  intros [= <-]. apply Nat.eqb_eq in Hs. auto.
Qed.

Lemma nth_columns (M : matrix) (j : nat) :
  j < ncols M -> nth j (columns M) [] = col j M.
Proof.
  intros Hj. unfold columns.
  rewrite (nth_indep _ [] (col 0 M))
    by (now rewrite length_map, length_seq).
  rewrite (map_nth (fun j => col j M)), seq_nth by exact Hj.
  reflexivity.
Qed.

(** C5: whenever [reconstructed_data] returns, its result has one
    column more than the control sequence it used, column 0 is the
    first snapshot itself, and column i+1 is A_full . column_i +
    B . control[:, i], with A_full = Phi . diag(eigs_scaled) .
    pinv(Phi). *)
Theorem C5_reconstructed_columns (ci : option raw) (s s' : DMDc)
        (R : matrix) :
  reconstructed_data ci s = (Ok R, s') ->
  exists controlin snapshots eigs_scaled Phi Pinv,
    control_used ci s = Ok controlin /\
    _snapshots s = Some snapshots /\
    scaled_eigs s = (Ok eigs_scaled, s) /\
    DMDc_modes s = (Ok Phi, s) /\
    pinv Phi = Some Pinv /\
    conformable Phi [diag eigs_scaled; Pinv] /\
    let A_full := product Phi [diag eigs_scaled; Pinv] in
    ncols R = ncols controlin + 1 /\
    col 0 R = col 0 snapshots /\
    forall i, i < ncols controlin ->
      exists B,
        _B s = Some B /\
        ncols A_full = length (col i R) /\
        ncols B = length (col i controlin) /\
        vadd (mvmul A_full (col i R)) (mvmul B (col i controlin))
        = Ok (col (i + 1) R).
Proof.
  intros H. apply reconstructed_data_Ok in H.
  destruct H as (controlin & horizon & Hc & _ & _ & H).
  unfold reconstructed_data_body in H.
  apply bind_Ok in H. destruct H as (eigs & s1 & He & H).
  assert (s1 = s) as -> by (eapply readonly_scaled_eigs; exact He).
  apply bind_Ok in H. destruct H as (Phi & s1 & HPhi & H).
  assert (s1 = s) as -> by (eapply on_operator_attr; exact HPhi).
  apply bind_Ok in H. destruct H as (PhiD & s1 & HPhiD & H).
  apply pure_run in HPhiD. destruct HPhiD as [HPhiD ->].
  apply bind_Ok in H. destruct H as (Phi' & s1 & HPhi' & H).
  assert (s1 = s) as -> by (eapply on_operator_attr; exact HPhi').
  assert (Phi' = Phi) by congruence. subst Phi'.
  run_ok.
  match goal with
  | Hp : propagate _ _ _ _ _ = _ |- _ =>
      apply propagate_Ok in Hp; [|reflexivity];
      destruct Hp as (-> & Hlen & Hkeep & Hstep)
  end.
  match goal with
  | Hm : (match ?d with _ => _ end) _ = _ |- _ =>
      destruct d as [|d0 rest]; [discriminate|];
      apply pure_run in Hm; destruct Hm as [HR _]
  end.
  apply array_T_Ok in HR. destruct HR as (Hcols & _ & Hcol).
  unfold columns in Hlen. rewrite length_map, length_seq in Hlen.
  simpl in Hlen.
  match goal with
  | Hd1 : dot Phi _ = Ok ?P1, Hd2 : dot ?P1 _ = Ok _ |- _ =>
      apply dot_Ok in Hd1; destruct Hd1 as [Hs1 ->];
      apply dot_Ok in Hd2; destruct Hd2 as [Hs2 ->]
  end.
  match goal with
  | Hf : first_column ?X = Ok _ |- _ =>
      unfold first_column in Hf;
      destruct (ncols X =? 0); [discriminate|]; injection Hf as <-
  end.
  do 5 eexists. split; [exact Hc|]. split; [eassumption|].
  split; [exact He|]. split; [exact HPhi|]. split; [eassumption|].
  split; [simpl; auto|]. cbv zeta.
  split; [lia|].
  split; [rewrite Hcol by lia; exact (Hkeep 0 (Nat.le_refl 0))|].
  intros i Hi.
  destruct (Hstep i) as (B & Ax & Bu & HB & HAx & HBu & Hsum).
  { unfold columns. now rewrite length_map, length_seq. }
  rewrite nth_columns in HBu by exact Hi.
  cbn [Nat.add] in HAx, Hsum.
  rewrite <- !Hcol in HAx, Hsum by lia.
  apply dot_vec_Ok in HAx. destruct HAx as [HsA ->].
  apply dot_vec_Ok in HBu. destruct HBu as [HsB ->].
  exists B. auto.
Qed.

End Reconstruction.

(** ** The size check, and what a reconstruction leaves behind *)

Section SizeCheck.
Context {C : Type} {S : Scalar C} {E : Externals C}.
Local Abbreviation vector := (@vector C).
Local Abbreviation matrix := (@matrix C).
Local Abbreviation DMDOperator := (@DMDOperator C).
Local Abbreviation DMDc := (@DMDc C).

Lemma readonly_reconstructed_data ci : readonly (reconstructed_data ci).
Proof.
  unfold reconstructed_data.
  apply readonly_bind.
  { destruct ci; repeat (apply readonly_bind; [|intros ?]);
      try apply readonly_pure; try apply readonly_read;
      try apply readonly_ret.
    destruct a. apply readonly_ret. }
  intros [c sh]. apply readonly_bind; [apply readonly_pure|].
  intros controlin.
  apply readonly_bind; [apply readonly_dynamics_shape_1|].
  intros horizon.
  destruct (negb _); [apply readonly_raise|apply readonly_body].
Qed.

(** With the control sequence and the horizon at hand, the size error
    is raised exactly when the column count is not horizon - 1. *)
Lemma size_error_iff (ci : option raw) (s : DMDc) (controlin : matrix)
      (horizon : Z) :
  control_used ci s = Ok controlin ->
  dynamics_shape_1 s = (Ok horizon, s) ->
  (fst (reconstructed_data ci s) = Err ReconstructionSizeError <->
   Z.of_nat (ncols controlin) <> (horizon - 1)%Z).
Proof.
  intros Hc Hd.
  rewrite (reconstructed_data_head _ Hc Hd).
  destruct (Z.of_nat (ncols controlin) =? horizon - 1)%Z eqn:Hk;
    cbn [negb].
  - apply Z.eqb_eq in Hk. split; [|intros Hne; contradiction].
    intros Herr. exfalso.
    destruct (reconstructed_data_body controlin s) as [r s1] eqn:Hb.
    simpl in Herr. subst r.
    pose proof (avoids_body controlin) as Hav. exact (Hav _ _ Hb).
  - apply Z.eqb_neq in Hk. split; [intros _; exact Hk|reflexivity].
Qed.

(** C6: with the control sequence it uses and the fitted horizon at
    hand, [reconstructed_data] raises the size error exactly when the
    sequence does not have horizon - 1 columns; it then leaves the
    model as it was, and does so whatever the pseudo-inverse routine is:
    no part of the reconstruction is computed. *)
Theorem C6_size_error (ci : option raw) (s : DMDc) (controlin : matrix)
        (horizon : Z) :
  control_used ci s = Ok controlin ->
  dynamics_shape_1 s = (Ok horizon, s) ->
  (fst (reconstructed_data ci s) = Err ReconstructionSizeError <->
   Z.of_nat (ncols controlin) <> (horizon - 1)%Z) /\
  (fst (reconstructed_data ci s) = Err ReconstructionSizeError ->
   snd (reconstructed_data ci s) = s /\
   forall f : matrix -> option matrix,
     reconstructed_data (E := with_pinv f) ci s
     = (Err ReconstructionSizeError, s)).
Proof.
  intros Hc Hd.
  pose proof (size_error_iff _ Hc Hd) as Hiff.
  split; [exact Hiff|]. intros Herr. split.
  - destruct (reconstructed_data ci s) as [r s1] eqn:Hr.
    pose proof (readonly_reconstructed_data ci) as Hro.
    exact (Hro _ _ _ Hr).
  - intros f. apply Hiff in Herr. apply Z.eqb_neq in Herr.
    rewrite (reconstructed_data_head (E := with_pinv f) ci
               (controlin := controlin) (horizon := horizon));
      [|exact Hc|exact Hd].
    rewrite Herr. reflexivity.
Qed.

(** C9: [reconstructed_data] leaves the model exactly as it found it,
    and two calls without argument on the same model return the same. *)
Theorem C9_reconstructed_data_reads_only (ci : option raw) (s : DMDc) :
  snd (reconstructed_data ci s) = s /\
  reconstructed_data None (snd (reconstructed_data None s))
  = reconstructed_data None s.
Proof.
  assert (Hframe : forall c, snd (reconstructed_data c s) = s).
  { intros c. destruct (reconstructed_data c s) as [r s1] eqn:Hr.
    pose proof (readonly_reconstructed_data c) as Hro.
    exact (Hro _ _ _ Hr). }
  split; [apply Hframe|]. now rewrite Hframe.
Qed.

End SizeCheck.

(** ** What [fit] leaves behind *)

Section PreservesFacts.
Context {St : Type}.

Lemma preserves_bind {A B} (P : St -> Prop) (m : M St A)
      (k : A -> M St B) :
  preserves P m -> (forall a, preserves P (k a)) -> preserves P (bind m k).
Proof.
  intros Hm Hk s r s' HP. unfold bind.
  destruct (m s) as [[a|e] s1] eqn:Hms.
  - apply Hk. exact (Hm _ _ _ HP Hms).
  - intros [= <- <-]. exact (Hm _ _ _ HP Hms).
Qed.

Lemma preserves_readonly {A} (P : St -> Prop) (m : M St A) :
  readonly m -> preserves P m.
Proof. intros Hm s r s' HP Hms. apply Hm in Hms. now subst. Qed.

Lemma preserves_assign (P : St -> Prop) (f : St -> St) :
  (forall s, P s -> P (f s)) -> preserves P (assign f).
Proof. intros Hf s r s' HP [= _ <-]. auto. Qed.

Lemma preserves_on_error_bind {A B} (P : St -> Prop) (m : M St A)
      (k : A -> M St B) :
  preserves P m -> (forall a, preserves_on_error P (k a)) ->
  preserves_on_error P (bind m k).
Proof.
  intros Hm Hk s e s' HP. unfold bind.
  destruct (m s) as [[a|e1] s1] eqn:Hms.
  - apply Hk. exact (Hm _ _ _ HP Hms).
  - intros [= <- <-]. exact (Hm _ _ _ HP Hms).
Qed.

Lemma preserves_on_error_assign (P : St -> Prop) (f : St -> St) :
  preserves_on_error P (assign f).
Proof. intros s e s' _ [=]. Qed.

Lemma bind_run {A B} (m : M St A) (k : A -> M St B) s r s' :
  bind m k s = (r, s') ->
  (exists e, m s = (Err e, s') /\ r = Err e) \/
  (exists a s1, m s = (Ok a, s1) /\ k a s1 = (r, s')).
Proof.
  unfold bind. destruct (m s) as [[a|e] s1]; [eauto|].
  intros [= <- <-]. eauto.
Qed.

End PreservesFacts.

Section FitFacts.
Context {C : Type} {S : Scalar C} {E : Externals C}.
Local Abbreviation vector := (@vector C).
Local Abbreviation matrix := (@matrix C).
Local Abbreviation DMDOperator := (@DMDOperator C).
Local Abbreviation DMDc := (@DMDc C).

Lemma preserves_on_operator {A} (P : DMDc -> Prop)
      (m : M DMDOperator A) :
  (forall s o, P s -> P (set__Atilde (Some o) s)) ->
  preserves P (on_operator m).
Proof.
  intros HP s r s' Hs. unfold on_operator.
  destruct (_Atilde s) as [o|].
  - destruct (m o) as [r' o']. intros [= _ <-]. auto.
  - intros [= _ <-]. exact Hs.
Qed.

(** The statements of [fit] from the choice of the operator on. *)
Ltac preserved :=
  repeat first
    [ apply preserves_bind; [|intros ?]
    | apply preserves_readonly, readonly_read
    | apply preserves_readonly, readonly_attr
    | apply preserves_readonly, readonly_pure
    | apply preserves_readonly, readonly_on_operator_attr
    | apply preserves_on_operator; intros ? ? ?
    | apply preserves_assign; intros ? ?
    | match goal with
      | |- preserves _ (let (_, _) := ?p in _) => destruct p
      | |- preserves _ (let '(_, _) := ?p in _) => destruct p
      end ].

(** Whatever happens, [fit] assigns the amplitudes last. *)
Lemma fit_error_keeps_b X I B (v : option vector) :
  preserves_on_error (fun st => _b st = v) (fit X I B).
Proof.
  unfold fit, _compute_amplitudes, DMDc_modes, DMDc_eigs, modes,
    eigenvalues.
  repeat first
    [ apply preserves_on_error_assign
    | apply preserves_on_error_bind; [|intros ?]
    | match goal with
      | |- preserves_on_error _ (let (_, _) := ?p in _) => destruct p
      | |- preserves_on_error _ (let '(_, _) := ?p in _) => destruct p
      end ].
  all: try (destruct B); preserved; fields; auto.
Qed.


Lemma fit_stores_inputs X I B s r s' snapshots shp controlin cshp :
  _col_major_2darray X = Some (snapshots, shp) ->
  _col_major_2darray I = Some (controlin, cshp) ->
  fit X I B s = (r, s') ->
  inputs_stored snapshots shp controlin cshp s'.
Proof.
  intros HX HI. unfold fit.
  unfold bind at 1. cbn [pure]. rewrite HX. cbn [of_external].
  unfold bind at 1. cbn [assign].
  unfold bind at 1. cbn [assign].
  unfold bind at 1. cbn [pure]. rewrite HI. cbn [of_external].
  unfold bind at 1. cbn [assign].
  unfold bind at 1. cbn [assign].
  unfold bind at 1. cbn [attr]. fields. cbn [not_None].
  unfold bind at 1. cbn [assign].
  unfold bind at 1. cbn [assign].
  set (P := inputs_stored snapshots shp controlin cshp).
  set (st := set_dmd_time _ _).
  assert (Hst : forall o, P (set__Atilde (Some o) st)).
  { intros o. unfold P, inputs_stored, st, fit_time. fields.
    repeat split; eauto. }
  assert (Hop : forall s0 o, P s0 -> P (set__Atilde (Some o) s0)).
  { intros s0 o (H1 & H2 & H3 & H4 & H5 & H6 & _).
    unfold P, inputs_stored. fields. repeat split; eauto. }
  assert (Htail : preserves P (b <- _compute_amplitudes ;;
                               assign (set__b (Some b)))%method).
  { unfold _compute_amplitudes, DMDc_modes, DMDc_eigs, modes, eigenvalues.
    preserved; auto. }
  assert (Hbranch : forall r0 sm,
             match B with
             | Some B0 =>
                 (kw <- read _dmd_operator_kwargs;;
                  assign (set__Atilde
                            (Some (DMDControlOperator_init BKnown kw)));;
                  controlin0 <- attr _controlin;;
                  x <- on_operator
                         (DMDBKnownOperator_compute_operator
                            (cols_but_last snapshots)
                            (cols_but_first snapshots) B0 controlin0);;
                  (let '(U, _, _) := x in
                   assign (set__basis (Some U));;
                   assign (set__B (Some B0))))%method
             | None =>
                 (kw <- read _dmd_operator_kwargs;;
                  assign (set__Atilde
                            (Some (DMDControlOperator_init BUnknown kw)));;
                  controlin0 <- attr _controlin;;
                  snapshots0 <- attr _snapshots;;
                  x <- on_operator
                         (DMDBUnknownOperator_compute_operator
                            (cols_but_last snapshots)
                            (cols_but_first snapshots) controlin0
                            (nrows snapshots0));;
                  (let '(basis, B0) := x in
                   assign (set__basis (Some basis));;
                   assign (set__B (Some B0))))%method
             end st = (r0, sm) -> P sm).
  { intros r0 sm. destruct B as [B0|].
    - unfold bind at 1. cbn [read]. unfold bind at 1. cbn [assign].
      intros Hrun.
      match type of Hrun with
      | ?k (set__Atilde (Some ?o) st) = _ =>
          assert (Hk : preserves P k) by (preserved; auto);
          exact (Hk _ _ _ (Hst o) Hrun)
      end.
    - unfold bind at 1. cbn [read]. unfold bind at 1. cbn [assign].
      intros Hrun.
      match type of Hrun with
      | ?k (set__Atilde (Some ?o) st) = _ =>
          assert (Hk : preserves P k) by (preserved; auto);
          exact (Hk _ _ _ (Hst o) Hrun)
      end. }
  intros Hrun. apply bind_run in Hrun.
  destruct Hrun as [(e & Hbr & _) | (u & s1 & Hbr & Hrun)].
  - exact (Hbranch _ _ Hbr).
  - exact (Htail _ _ _ (Hbranch _ _ Hbr) Hrun).
Qed.


(** C7, as the code has it: [fit] undoes nothing when it raises.  Only
    the amplitudes are sure not to be established; once both inputs
    are parsed, the snapshots, the control sequence, their shapes, both
    time descriptors and a new operator object stay stored whatever
    fails afterwards; the model is untouched when the snapshots cannot
    be parsed. *)
Theorem C7_fit_error_state (X I : raw) (B : option matrix) (s s' : DMDc)
        (e : exn) :
  fit X I B s = (Err e, s') ->
  _b s' = _b s /\
  (forall snapshots shp controlin cshp,
      _col_major_2darray X = Some (snapshots, shp) ->
      _col_major_2darray I = Some (controlin, cshp) ->
      inputs_stored snapshots shp controlin cshp s') /\
  (_col_major_2darray X = None -> s' = s).
Proof.
  intros Hfit. split; [|split].
  - pose proof (@fit_error_keeps_b X I B (_b s)) as Hkeep.
    exact (Hkeep _ _ _ eq_refl Hfit).
  - intros snapshots shp controlin cshp HX HI.
    eapply fit_stores_inputs; eassumption.
  - intros HX. unfold fit in Hfit. unfold bind at 1 in Hfit.
    cbn [pure] in Hfit. rewrite HX in Hfit. cbn [of_external] in Hfit.
    now injection Hfit as _ <-.
Qed.

Lemma power_1 (w : vector) :
  (forall z : C, cpower z 1 = z) -> power w 1 = w.
Proof.
  intros Hpow. unfold power. rewrite (map_ext _ (fun z => z) Hpow).
  apply map_id.
Qed.

(** What a successful [fit] has stored, with or without B. *)
Lemma fit_Ok X I B s s' :
  fit X I B s = (Ok tt, s') ->
  exists snapshots shp controlin cshp op w,
    _col_major_2darray X = Some (snapshots, shp) /\
    _col_major_2darray I = Some (controlin, cshp) /\
    inputs_stored snapshots shp controlin cshp s' /\
    _Atilde s' = Some op /\
    _eigenvalues op = Some w /\
    (B = None -> ncols (cols_but_last snapshots) = ncols controlin).
Proof.
  intros Hfit. destruct B as [B|].
  - pose proof Hfit as Hfit'. apply fit_known_Ok in Hfit.
    destruct Hfit as (snapshots & shp & controlin & cshp & U & sv & V & o'
                      & Phi & w & b & HX & HI & _ & _ & Hw & _ & ->).
    exists snapshots, shp, controlin, cshp, o', w.
    split; [exact HX|]. split; [exact HI|].
    split; [eapply fit_stores_inputs; eassumption|].
    split; [reflexivity|]. split; [exact Hw|]. discriminate.
  - pose proof Hfit as Hfit'. apply fit_unknown_Ok in Hfit.
    destruct Hfit as (snapshots & shp & controlin & cshp & basis & B & o'
                      & Phi & w & b & HX & HI & Hrun & _ & Hw & _ & ->).
    exists snapshots, shp, controlin, cshp, o', w.
    split; [exact HX|]. split; [exact HI|].
    split; [eapply fit_stores_inputs; eassumption|].
    split; [reflexivity|]. split; [exact Hw|]. intros _.
    apply unknown_builder_Ok in Hrun.
    destruct Hrun as (omega & Up & sp & Vp & Ur & sr & Vr & Atilde & w'
                      & W & Phi' & Btilde & Hom & _).
    apply (vstack_Ok _ _ Hom).
Qed.

Lemma DMDc_eigs_run (s : DMDc) (op : DMDOperator) (w : vector) :
  _Atilde s = Some op -> _eigenvalues op = Some w ->
  DMDc_eigs s = (Ok w, s).
Proof.
  intros Hop Hw. unfold DMDc_eigs, eigenvalues, on_operator, attr.
  rewrite Hop, Hw. cbn [not_None]. rewrite <- Hop.
  now rewrite set__Atilde_same.
Qed.

(** C8: a fitted model has both time descriptors equal to
    {t0: 0, tend: n_samples - 1, dt: 1}; the exponent
    dmd_dt / original_dt is 1, and the scaled eigenvalues
    [reconstructed_data] builds A_full from are the fitted eigenvalues
    themselves (raising to the power 1 returns the number). *)
Theorem C8_time_descriptors_and_scaling (X I : raw) (B : option matrix)
        (s s' : DMDc) :
  (forall z : C, cpower z 1 = z) ->
  fit X I B s = (Ok tt, s') ->
  exists snapshots shp w,
    _col_major_2darray X = Some (snapshots, shp) /\
    let time := TimeDict 0 (Z.of_nat (ncols snapshots) - 1) 1 in
    original_time s' = Some time /\
    dmd_time s' = Some time /\
    old_div (dt time) (dt time) = Ok 1%Z /\
    DMDc_eigs s' = (Ok w, s') /\
    scaled_eigs s' = (Ok w, s').
Proof.
  intros Hpow Hfit. apply fit_Ok in Hfit.
  destruct Hfit as (snapshots & shp & controlin & cshp & op & w & HX & _
                    & Hst & Hop & Hw & _).
  destruct Hst as (_ & _ & _ & _ & Hot & Hdt & _).
  exists snapshots, shp, w. split; [exact HX|]. cbv zeta.
  split; [exact Hot|]. split; [exact Hdt|]. split; [reflexivity|].
  assert (Heigs : DMDc_eigs s' = (Ok w, s'))
    by (eapply DMDc_eigs_run; eassumption).
  split; [exact Heigs|].
  unfold scaled_eigs. unfold bind at 1. rewrite Heigs.
  unfold bind at 1. unfold attr at 1. rewrite Hdt. cbn [not_None].
  unfold bind at 1. unfold attr at 1. rewrite Hot. cbn [not_None].
  unfold fit_time. cbn [dt bind pure old_div Z.eqb Z.div ret].
  change (1 / 1)%Z with 1%Z. now rewrite power_1.
Qed.

Lemma timesteps_fit_time (snapshots : matrix) :
  timesteps (fit_time snapshots) = Ok (Z.of_nat (ncols snapshots)).
Proof.
  unfold timesteps, fit_time. cbn [dt tend t0 Z.eqb].
  f_equal. rewrite Z.div_1_r. lia.
Qed.

(** C10, as the code has it: after a successful fit on at least one
    snapshot, [reconstructed_data] without argument does not raise the
    size error when B was omitted (the stacking forces the control
    matrix to have n_samples - 1 columns), nor when B was given and the
    control matrix has n_samples - 1 columns. *)
Theorem C10_stored_control_passes_check (X I : raw) (B : option matrix)
        (s s' : DMDc) (snapshots controlin : matrix)
        (shp cshp : option shape) :
  fit X I B s = (Ok tt, s') ->
  _col_major_2darray X = Some (snapshots, shp) ->
  _col_major_2darray I = Some (controlin, cshp) ->
  1 <= ncols snapshots ->
  B = None \/ ncols controlin = ncols snapshots - 1 ->
  _controlin s' = Some controlin /\
  ncols controlin = ncols snapshots - 1 /\
  fst (reconstructed_data None s') <> Err ReconstructionSizeError.
Proof.
  intros Hfit HX HI Hn HB. apply fit_Ok in Hfit.
  destruct Hfit as (snapshots' & shp' & controlin' & cshp' & op & w & HX'
                    & HI' & Hst & _ & _ & Hstack).
  rewrite HX in HX'. injection HX' as <- <-.
  rewrite HI in HI'. injection HI' as <- <-.
  destruct Hst as (_ & _ & Hc & _ & _ & Hdt & _).
  assert (Hcols : ncols controlin = ncols snapshots - 1).
  { destruct HB as [-> | Hk]; [|exact Hk].
    symmetry. exact (Hstack eq_refl). }
  split; [exact Hc|]. split; [exact Hcols|].
  assert (Hd : dynamics_shape_1 s'
               = (Ok (Z.of_nat (ncols snapshots)), s')).
  { unfold dynamics_shape_1, bind, attr, pure. rewrite Hdt.
    cbn [not_None]. now rewrite timesteps_fit_time. }
  assert (Hu : control_used None s' = Ok controlin).
  { unfold control_used. now rewrite Hc. }
  intros Herr. eapply size_error_iff in Herr; [|exact Hu|exact Hd]. lia.
Qed.

End FitFacts.


(** ** More on what [fit] does *)

Section FitRuns.
Context {C : Type} {S : Scalar C} {E : Externals C}.
Local Abbreviation vector := (@vector C).
Local Abbreviation matrix := (@matrix C).
Local Abbreviation DMDOperator := (@DMDOperator C).
Local Abbreviation DMDc := (@DMDc C).

(** [fit] from the choice of the operator on, for parsed inputs. *)
Ltac fit_head HX HI :=
  unfold fit;
  unfold bind at 1; cbn [pure]; rewrite HX; cbn [of_external];
  unfold bind at 1; cbn [assign];
  unfold bind at 1; cbn [assign];
  unfold bind at 1; cbn [pure]; rewrite HI; cbn [of_external];
  unfold bind at 1; cbn [assign];
  unfold bind at 1; cbn [assign];
  unfold bind at 1; cbn [attr]; fields; cbn [not_None];
  unfold bind at 1; cbn [assign];
  unfold bind at 1; cbn [assign].

(** Runs the statements whose outcome is known. *)
Ltac run_fields :=
  cbv beta iota zeta delta
      [bind pure assign attr read ret raise not_None of_external
       on_operator
       _Atilde _dmd_operator_kwargs original_time dmd_time _b _snapshots
       _snapshots_shape _B _controlin _controlin_shape _basis
       set__Atilde set_original_time set_dmd_time set__b set__snapshots
       set__snapshots_shape set__B set__controlin set__controlin_shape
       set__basis
       op_class _svd_rank _svd_rank_omega op_Atilde _eigenvalues
       _eigenvectors _modes _Lambda
       set_op_Atilde set__eigenvalues set__eigenvectors set__modes
       set__Lambda].

(** The whole of a fit without B, in terms of the run of the builder. *)
Lemma fit_unknown_eq (X I : raw) (s : DMDc) (snapshots controlin : matrix)
      (shp cshp : option shape) :
  _col_major_2darray X = Some (snapshots, shp) ->
  _col_major_2darray I = Some (controlin, cshp) ->
  fit X I None s =
  let st := inputs_in s BUnknown snapshots shp controlin cshp in
  match DMDBUnknownOperator_compute_operator
          (cols_but_last snapshots) (cols_but_first snapshots) controlin
          (nrows snapshots)
          (DMDControlOperator_init BUnknown (_dmd_operator_kwargs s)) with
  | (Err e, o') => (Err e, set__Atilde (Some o') st)
  | (Ok (basis, B), o') =>
      let st' := set__B (Some B)
                   (set__basis (Some basis) (set__Atilde (Some o') st)) in
      match _modes o', _eigenvalues o' with
      | Some Phi, Some w =>
          match compute_amplitudes Phi w snapshots with
          | Some b => (Ok tt, set__b (Some b) st')
          | None => (Err ExternalError, st')
          end
      | _, _ => (Err AttributeError, st')
      end
  end.
Proof.
  intros HX HI. fit_head HX HI.
  unfold bind at 1. unfold bind at 1. cbn [read].
  unfold bind at 1. cbn [assign]. fields.
  unfold bind at 1. cbn [attr]. fields. cbn [not_None].
  unfold bind at 1. cbn [attr]. fields. cbn [not_None].
  unfold bind at 1. unfold on_operator at 1. fields.
  cbv zeta. unfold inputs_in, fit_time.
  destruct (DMDBUnknownOperator_compute_operator _ _ _ _ _)
    as [[[basis B]|e] o']; [|reflexivity].
  unfold _compute_amplitudes, DMDc_modes, DMDc_eigs, modes, eigenvalues.
  destruct o' as [cls rk rko At [w|] evec [Phi|] La]; run_fields;
    try reflexivity.
  destruct (compute_amplitudes Phi w snapshots) as [b|]; reflexivity.
Qed.


(** The whole of a fit with a given B, in terms of the subtraction and of
    the run of the operator without control. *)
Lemma fit_known_eq (X I : raw) (B : matrix) (s : DMDc)
      (snapshots controlin : matrix) (shp cshp : option shape) :
  _col_major_2darray X = Some (snapshots, shp) ->
  _col_major_2darray I = Some (controlin, cshp) ->
  fit X I (Some B) s =
  let st := inputs_in s BKnown snapshots shp controlin cshp in
  match rbind (dot B controlin) (msub (cols_but_first snapshots)) with
  | Err e => (Err e, st)
  | Ok Y' =>
      match DMDOperator_compute_operator
              (cols_but_last snapshots) Y'
              (DMDControlOperator_init BKnown (_dmd_operator_kwargs s)) with
      | (None, o') => (Err ExternalError, set__Atilde (Some o') st)
      | (Some (U, _, _), o') =>
          let st' := set__B (Some B)
                       (set__basis (Some U) (set__Atilde (Some o') st)) in
          match _modes o', _eigenvalues o' with
          | Some Phi, Some w =>
              match compute_amplitudes Phi w snapshots with
              | Some b => (Ok tt, set__b (Some b) st')
              | None => (Err ExternalError, st')
              end
          | _, _ => (Err AttributeError, st')
          end
      end
  end.
Proof.
  intros HX HI. fit_head HX HI.
  unfold _compute_amplitudes, DMDc_modes, DMDc_eigs, modes, eigenvalues,
    DMDBKnownOperator_compute_operator, inputs_in, fit_time.
  destruct (rbind (dot B controlin) (msub (cols_but_first snapshots)))
    as [Y'|e] eqn:HY; run_fields; rewrite HY; [|reflexivity].
  destruct (DMDOperator_compute_operator _ _ _)
    as [[[[U sv] V]|] o']; [|reflexivity].
  destruct o' as [cls rk rko At [w|] evec [Phi|] La]; run_fields;
    try reflexivity.
  destruct (compute_amplitudes Phi w snapshots) as [b|]; reflexivity.
Qed.

(** When an input cannot be parsed. *)
Lemma fit_snapshots_unparsed (X I : raw) (B : option matrix) (s : DMDc) :
  _col_major_2darray X = None ->
  fit X I B s = (Err ExternalError, s).
Proof.
  intros HX. unfold fit. unfold bind at 1. cbn [pure]. rewrite HX.
  reflexivity.
Qed.

Lemma fit_control_unparsed (X I : raw) (B : option matrix) (s : DMDc)
      (snapshots : matrix) (shp : option shape) :
  _col_major_2darray X = Some (snapshots, shp) ->
  _col_major_2darray I = None ->
  fit X I B s
  = (Err ExternalError,
     set__snapshots_shape shp (set__snapshots (Some snapshots) s)).
Proof.
  intros HX HI. unfold fit.
  unfold bind at 1. cbn [pure]. rewrite HX. cbn [of_external].
  unfold bind at 1. cbn [assign].
  unfold bind at 1. cbn [assign].
  unfold bind at 1. cbn [pure]. rewrite HI. reflexivity.
Qed.

(** The unknown-B builder stops at the stacking when the column counts
    differ, before it has written anything. *)
Lemma unknown_builder_vstack_fails (X Y controlin : matrix) (n : nat)
      (o : DMDOperator) :
  ncols X <> ncols controlin ->
  DMDBUnknownOperator_compute_operator X Y controlin n o
  = (Err ValueError, o).
Proof.
  intros Hne. unfold DMDBUnknownOperator_compute_operator.
  unfold bind at 1. cbn [pure]. unfold vstack.
  apply Nat.eqb_neq in Hne. rewrite Hne. reflexivity.
Qed.


(** The exceptions of the array operations. *)
Lemma dot_Err (A B : matrix) (e : exn) : dot A B = Err e -> e = ValueError.
Proof. unfold dot. destruct (_ =? _); congruence. Qed.

Lemma chain_Err (factors : list matrix) (r : result matrix) (e : exn) :
  chain r factors = Err e -> r = Err e \/ e = ValueError.
Proof.
  revert r. induction factors as [|B rest IH]; intros r; simpl; [auto|].
  intros H. apply IH in H. destruct H as [H|H]; [|auto].
  destruct r as [A|e0]; simpl in H; [|auto].
  right. exact (dot_Err _ _ H).
Qed.

Lemma chain_Ok_Err (factors : list matrix) (A : matrix) (e : exn) :
  chain (Ok A) factors = Err e -> e = ValueError.
Proof.
  intros H. apply chain_Err in H. destruct H as [H|H]; congruence.
Qed.

Lemma vstack_Err (A B : matrix) (e : exn) :
  vstack A B = Err e -> e = ValueError /\ ncols A <> ncols B.
Proof.
  unfold vstack. destruct (ncols A =? ncols B) eqn:Hs; [discriminate|].
  apply Nat.eqb_neq in Hs. intros [= <-]. auto.
Qed.

Lemma of_external_Err {A} (o : option A) (e : exn) :
  of_external o = Err e -> e = ExternalError.
Proof. destruct o; simpl; congruence. Qed.

(** The unknown-B builder, as a case analysis over the steps that can
    fail. *)
Lemma unknown_builder_eq (X Y controlin : matrix) (n : nat)
      (o : DMDOperator) :
  DMDBUnknownOperator_compute_operator X Y controlin n o =
  match vstack X controlin with
  | Err e => (Err e, o)
  | Ok omega =>
  match of_external (_compute_svd omega (_svd_rank_omega o)) with
  | Err e => (Err e, o)
  | Ok (Up, sp, Vp) =>
  match of_external (_compute_svd Y (_svd_rank o)) with
  | Err e => (Err e, o)
  | Ok (Ur, _, _) =>
  match chain (Ok (T_conj Ur))
              [Y; Vp; diag (reciprocal sp); T_conj (rows_upto n Up); Ur]
  with
  | Err e => (Err e, o)
  | Ok Atilde =>
  let o1 := set_op_Atilde (Some Atilde) o in
  match of_external (eig Atilde) with
  | Err e => (Err e, o1)
  | Ok (w, W) =>
  let o2 := set__eigenvectors (Some W) (set__eigenvalues (Some w) o1) in
  match chain (Ok Y)
              [Vp; diag (reciprocal sp); T_conj (rows_upto n Up); Ur; W]
  with
  | Err e => (Err e, o2)
  | Ok Phi =>
  let o3 := set__Lambda (Some w) (set__modes (Some Phi) o2) in
  match rbind (chain (Ok (T_conj Ur))
                     [Y; Vp; diag (reciprocal sp);
                      T_conj (rows_from n Up)])
              (dot Ur)
  with
  | Err e => (Err e, o3)
  | Ok B => (Ok (Ur, B), o3)
  end end end end end end end.
Proof.
  unfold DMDBUnknownOperator_compute_operator, _compute_modes_and_Lambda,
    _compute_eigenquantities, eigenvectors, eigenvalues.
  cbn [chain]. destruct o as [cls rk rko At ev evec md La].
  destruct (vstack X controlin) as [omega|e]; run_fields; [|reflexivity].
  destruct (_compute_svd omega rko) as [[[Up sp] Vp]|]; run_fields;
    [|reflexivity].
  destruct (_compute_svd Y rk) as [[[Ur sr] Vr]|]; run_fields;
    [|reflexivity].
  destruct (Ok (T_conj Ur) .dot Y .dot Vp .dot diag (reciprocal sp)
              .dot T_conj (rows_upto n Up) .dot Ur)
    as [Atilde|e]; run_fields; [|reflexivity].
  destruct (eig Atilde) as [[w W]|]; run_fields; [|reflexivity].
  destruct (Ok Y .dot Vp .dot diag (reciprocal sp)
              .dot T_conj (rows_upto n Up) .dot Ur)
    as [P|e]; [|reflexivity].
  cbn [then_dot rbind].
  destruct (dot P W) as [Phi|e]; run_fields; [|reflexivity].
  match goal with
  | |- context [rbind ?c (dot Ur)] => destruct c as [Bt|e]
  end; [|reflexivity].
  cbn [rbind].
  destruct (dot Ur Bt) as [B|e]; reflexivity.
Qed.


(** X1: a fit without B whose control matrix does not have one column
    less than the snapshots raises ValueError in the stacking; the
    inputs, the time descriptors and a new, empty operator are in place,
    and the amplitudes, B and the basis are as they were. *)
Theorem fit_unknown_B_rejects_control_columns
        (X I : raw) (s : DMDc) (snapshots controlin : matrix)
        (shp cshp : option shape) :
  _col_major_2darray X = Some (snapshots, shp) ->
  _col_major_2darray I = Some (controlin, cshp) ->
  ncols controlin <> ncols snapshots - 1 ->
  fit X I None s
  = (Err ValueError, inputs_in s BUnknown snapshots shp controlin cshp).
Proof.
  intros HX HI Hne. rewrite (@fit_unknown_eq X I s snapshots controlin shp cshp HX HI).
  rewrite unknown_builder_vstack_fails
    by (cbn [cols_but_last ncols]; congruence).
  reflexivity.
Qed.

(** X2: a fit with a given B whose column count is not the row count of
    the control matrix raises ValueError in the product B . U_ctrl; the
    operator without control is not run, and the amplitudes, B and the
    basis are as they were. *)
Theorem fit_known_B_rejects_B_columns
        (X I : raw) (B : matrix) (s : DMDc) (snapshots controlin : matrix)
        (shp cshp : option shape) :
  _col_major_2darray X = Some (snapshots, shp) ->
  _col_major_2darray I = Some (controlin, cshp) ->
  ncols B <> nrows controlin ->
  fit X I (Some B) s
  = (Err ValueError, inputs_in s BKnown snapshots shp controlin cshp).
Proof.
  intros HX HI Hne. rewrite (@fit_known_eq X I B s snapshots controlin shp cshp HX HI).
  unfold dot. apply Nat.eqb_neq in Hne. rewrite Hne. reflexivity.
Qed.

Lemma broadcast_dim_None (a b : nat) :
  a <> b -> a <> 1 -> b <> 1 -> broadcast_dim a b = None.
Proof.
  intros H1 H2 H3. unfold broadcast_dim.
  apply Nat.eqb_neq in H1, H2, H3. now rewrite H1, H2, H3.
Qed.

(** X3: a fit with a given B raises ValueError in the subtraction when
    the control matrix has neither one column less than the snapshots
    nor a single column (and there are not exactly two snapshots): the
    subtraction broadcasts in no other case. *)
Theorem fit_known_B_rejects_control_columns
        (X I : raw) (B : matrix) (s : DMDc) (snapshots controlin : matrix)
        (shp cshp : option shape) :
  _col_major_2darray X = Some (snapshots, shp) ->
  _col_major_2darray I = Some (controlin, cshp) ->
  ncols B = nrows controlin ->
  ncols controlin <> ncols snapshots - 1 ->
  ncols controlin <> 1 ->
  ncols snapshots - 1 <> 1 ->
  fit X I (Some B) s
  = (Err ValueError, inputs_in s BKnown snapshots shp controlin cshp).
Proof.
  intros HX HI Hdot Hne H1 H2. rewrite (@fit_known_eq X I B s snapshots controlin shp cshp HX HI).
  unfold dot. apply Nat.eqb_eq in Hdot. rewrite Hdot. cbn [rbind].
  unfold msub. cbn [ncols cols_but_first mmul].
  rewrite (@broadcast_dim_None (ncols snapshots - 1) (ncols controlin))
    by congruence.
  destruct (broadcast_dim _ _); reflexivity.
Qed.

(** X4: a fit without B fails only with a shape error of an array
    operation or with the exception of an imported routine: no attribute
    it reads is missing, no index is out of bounds. *)
Theorem fit_unknown_B_failures (X I : raw) (s s' : DMDc) (e : exn) :
  fit X I None s = (Err e, s') ->
  e = ValueError \/ e = ExternalError.
Proof.
  intros H.
  destruct (_col_major_2darray X) as [[snapshots shp]|] eqn:HX.
  2:{ rewrite (@fit_snapshots_unparsed X I None s HX) in H.
      injection H as <- _. auto. }
  destruct (_col_major_2darray I) as [[controlin cshp]|] eqn:HI.
  2:{ rewrite (@fit_control_unparsed X I None s snapshots shp HX HI) in H.
      injection H as <- _. auto. }
  rewrite (@fit_unknown_eq X I s snapshots controlin shp cshp HX HI), unknown_builder_eq in H.
  cbv zeta in H.
  repeat match type of H with
         | context [match ?x with _ => _ end] =>
             lazymatch x with
             | context [match _ with _ => _ end] => fail
             | _ => destruct x eqn:?
             end
         end;
    try discriminate;
    injection H as <- _;
    repeat match goal with
           | Hq : vstack _ _ = Err _ |- _ =>
               apply vstack_Err in Hq; destruct Hq as [-> _]
           | Hq : of_external _ = Err _ |- _ =>
               apply of_external_Err in Hq; subst
           | Hq : chain (Ok _) _ = Err _ |- _ =>
               apply chain_Ok_Err in Hq; subst
           | Hq : rbind ?c (dot _) = Err _ |- _ =>
               destruct c eqn:?; cbn [rbind] in Hq
           | Hq : dot _ _ = Err _ |- _ => apply dot_Err in Hq; subst
           | Hq : Err _ = Err _ |- _ => injection Hq as ->
           end;
    auto.
  all: fields; try discriminate.
Qed.



(** X6: fitting again overwrites: a successful fit gives the same model
    from any starting model with the same keyword arguments, whatever
    that model held before. *)
Theorem fit_overwrites (X I : raw) (B : option matrix) (s1 s2 s' : DMDc) :
  _dmd_operator_kwargs s1 = _dmd_operator_kwargs s2 ->
  fit X I B s1 = (Ok tt, s') ->
  fit X I B s2 = (Ok tt, s').
Proof.
  intros Hkw H.
  pose proof H as H0. apply fit_Ok in H0.
  destruct H0 as (snapshots & shp & controlin & cshp & _ & _ & HX & HI & _).
  revert H. destruct B as [B|].
  - rewrite (@fit_known_eq X I B s1 snapshots controlin shp cshp HX HI).
    rewrite (@fit_known_eq X I B s2 snapshots controlin shp cshp HX HI).
    unfold inputs_in. rewrite <- Hkw. cbv zeta.
    repeat match goal with
           | |- context [match ?x with _ => _ end] =>
               lazymatch x with
               | context [match _ with _ => _ end] => fail
               | _ => destruct x eqn:?
               end
           end;
      try discriminate; intros [= <-]; reflexivity.
  - rewrite (@fit_unknown_eq X I s1 snapshots controlin shp cshp HX HI).
    rewrite (@fit_unknown_eq X I s2 snapshots controlin shp cshp HX HI).
    unfold inputs_in. rewrite <- Hkw. cbv zeta.
    repeat match goal with
           | |- context [match ?x with _ => _ end] =>
               lazymatch x with
               | context [match _ with _ => _ end] => fail
               | _ => destruct x eqn:?
               end
           end;
      try discriminate; intros [= <-]; reflexivity.
Qed.

End FitRuns.

(** ** The shapes of what a fit without B computes *)

Section FitShapes.
Context {C : Type} {S : Scalar C} {E : Externals C}.
Local Abbreviation vector := (@vector C).
Local Abbreviation matrix := (@matrix C).
Local Abbreviation DMDOperator := (@DMDOperator C).
Local Abbreviation DMDc := (@DMDc C).

Lemma nrows_mmul (A B : matrix) : nrows (mmul A B) = nrows A.
Proof. unfold nrows, mmul; simpl. apply length_map. Qed.

Lemma nrows_product (factors : list matrix) (A : matrix) :
  nrows (product A factors) = nrows A.
Proof.
  revert A. induction factors as [|B rest IH]; intros A; [reflexivity|].
  unfold product in *. simpl. rewrite IH. apply nrows_mmul.
Qed.

Lemma nrows_hermitian (M : matrix) : nrows (hermitian M) = ncols M.
Proof.
  unfold nrows, hermitian; simpl. now rewrite length_map, length_seq.
Qed.

Lemma nrows_cols_but_first (M : matrix) :
  nrows (cols_but_first M) = nrows M.
Proof. unfold nrows, cols_but_first; simpl. apply length_map. Qed.

Lemma nrows_cols_but_last (M : matrix) :
  nrows (cols_but_last M) = nrows M.
Proof. unfold nrows, cols_but_last; simpl. apply length_map. Qed.

(** X7: after a fit without B the basis has one row for each state, the
    reduced operator is square, of the order of the number of basis
    vectors, and the modes have one row for each state: the products of
    the builder go through with no other shapes. *)
Theorem fit_unknown_B_shapes (X I : raw) (s s' : DMDc)
        (snapshots : matrix) (shp : option shape) :
  fit X I None s = (Ok tt, s') ->
  _col_major_2darray X = Some (snapshots, shp) ->
  exists op Atilde Phi U,
    _Atilde s' = Some op /\
    op_Atilde op = Some Atilde /\
    _modes op = Some Phi /\
    _basis s' = Some U /\
    nrows U = nrows snapshots /\
    nrows Atilde = ncols U /\
    ncols Atilde = ncols U /\
    nrows Phi = nrows snapshots.
Proof.
  intros Hfit HX. apply fit_unknown_Ok in Hfit.
  destruct Hfit as (snapshots' & shp' & controlin & cshp & basis & B & o'
                    & Phi0 & w0 & b & HX' & HI & Hrun & _ & _ & _ & ->).
  rewrite HX in HX'. injection HX' as <- <-.
  apply unknown_builder_Ok in Hrun.
  destruct Hrun as (omega & Up & sp & Vp & Ur & sr & Vr & Atilde & w & W
                    & Phi & Btilde & _ & _ & _ & HA & _ & HPhi & _ & _
                    & -> & ->).
  rewrite !T_conj_hermitian, diag_reciprocal in HA, HPhi.
  apply chain_Ok in HA. destruct HA as [HcA ->].
  apply chain_Ok in HPhi. destruct HPhi as [_ ->].
  exists_operator. do 3 eexists.
  split; [reflexivity|]. split; [reflexivity|]. split; [reflexivity|].
  split; [reflexivity|].
  destruct HcA as [HUr _]. cbn [hermitian ncols] in HUr.
  rewrite nrows_cols_but_first in HUr.
  split; [exact HUr|].
  split; [rewrite nrows_product; apply nrows_hermitian|].
  split; [reflexivity|].
  rewrite nrows_product. apply nrows_cols_but_first.
Qed.

(** X8: when the SVD routine returns a U with as many rows as the array
    it decomposes, the B a fit without B estimates has one row for each
    state and one column for each row of the control matrix. *)
Theorem fit_unknown_B_shape_of_B (X I : raw) (s s' : DMDc)
        (snapshots controlin : matrix) (shp cshp : option shape) :
  (forall (M : matrix) (r : rank_spec) (U : matrix) (sg : vector)
          (V : matrix),
      _compute_svd M r = Some (U, sg, V) -> nrows U = nrows M) ->
  fit X I None s = (Ok tt, s') ->
  _col_major_2darray X = Some (snapshots, shp) ->
  _col_major_2darray I = Some (controlin, cshp) ->
  exists B,
    _B s' = Some B /\
    nrows B = nrows snapshots /\
    ncols B = nrows controlin.
Proof.
  intros Hsvd Hfit HX HI. apply fit_unknown_Ok in Hfit.
  destruct Hfit as (snapshots' & shp' & controlin' & cshp' & basis & B & o'
                    & Phi0 & w0 & b & HX' & HI' & Hrun & _ & _ & _ & ->).
  rewrite HX in HX'. injection HX' as <- <-.
  rewrite HI in HI'. injection HI' as <- <-.
  apply unknown_builder_Ok in Hrun.
  destruct Hrun as (omega & Up & sp & Vp & Ur & sr & Vr & Atilde & w & W
                    & Phi & Btilde & Hom & Hsvd1 & _ & _ & _ & _ & HB
                    & Hlift & _ & _).
  rewrite !T_conj_hermitian, diag_reciprocal in HB.
  apply chain_Ok in HB. destruct HB as [HcB ->].
  apply dot_Ok in Hlift. destruct Hlift as [_ ->].
  exists (mmul Ur (product (hermitian Ur)
                     [cols_but_first snapshots; Vp; diag_inv sp;
                      hermitian (rows_from (nrows snapshots) Up)])).
  split; [reflexivity|]. split.
  - rewrite nrows_mmul. destruct HcB as [HUr _].
    cbn [hermitian ncols] in HUr. now rewrite nrows_cols_but_first in HUr.
  - cbn [mmul ncols product fold_left hermitian].
    apply Hsvd in Hsvd1. apply vstack_Ok in Hom.
    destruct Hom as (_ & _ & Hrows).
    unfold nrows in *. cbn [rows_from mrows].
    rewrite length_skipn, Hsvd1, Hrows, length_app.
    cbn [cols_but_last mrows]. rewrite length_map.
    rewrite Nat.add_comm. apply Nat.add_sub.
Qed.

End FitShapes.

(** ** The subtraction of a fit with a given B *)

Section KnownSubtraction.
Context {C : Type} {S : Scalar C} {E : Externals C}.
Local Abbreviation vector := (@vector C).
Local Abbreviation matrix := (@matrix C).
Local Abbreviation DMDOperator := (@DMDOperator C).
Local Abbreviation DMDc := (@DMDc C).

Lemma wf_cols_but_first (M : matrix) : wf M -> wf (cols_but_first M).
Proof.
  unfold wf, cols_but_first; simpl. intros HM.
  apply Forall_map. revert HM. apply Forall_impl. intros r <-.
  destruct r; simpl; lia.
Qed.

Lemma wf_mmul (A B : matrix) : wf (mmul A B).
Proof.
  unfold wf, mmul; simpl. apply Forall_map, Forall_forall. intros r _.
  unfold columns. now rewrite !length_map, length_seq.
Qed.

(** X9: when the given B has one row for each state and the control
    matrix one column less than the snapshots (a well-formed array),
    nothing is broadcast: the operator without control is run on
    Y_next - B . U_ctrl taken entry by entry, and its basis is the one
    [fit] stores. *)
Theorem fit_known_B_subtracts_entrywise
        (X I : raw) (B : matrix) (s s' : DMDc)
        (snapshots controlin : matrix) (shp cshp : option shape) :
  fit X I (Some B) s = (Ok tt, s') ->
  _col_major_2darray X = Some (snapshots, shp) ->
  _col_major_2darray I = Some (controlin, cshp) ->
  wf snapshots ->
  nrows B = nrows snapshots ->
  ncols controlin = ncols snapshots - 1 ->
  exists U sv V op,
    DMDOperator_compute_operator
      (cols_but_last snapshots)
      (entrywise_sub (cols_but_first snapshots) (mmul B controlin))
      (DMDControlOperator_init BKnown (_dmd_operator_kwargs s))
    = (Some (U, sv, V), op) /\
    _Atilde s' = Some op /\
    _basis s' = Some U.
Proof.
  intros Hfit HX HI Hwf Hrows Hcols. apply fit_known_Ok in Hfit.
  destruct Hfit as (snapshots' & shp' & controlin' & cshp' & U & sv & V
                    & o' & Phi & w & b & HX' & HI' & Hrun & _ & _ & _ & ->).
  rewrite HX in HX'. injection HX' as <- <-.
  rewrite HI in HI'. injection HI' as <- <-.
  apply known_builder_Ok in Hrun.
  destruct Hrun as (P & Y' & HP & HY & Hdel).
  apply dot_Ok in HP. destruct HP as [_ ->].
  rewrite msub_same_shape in HY.
  - injection HY as <-. exists U, sv, V, o'. auto.
  - apply wf_cols_but_first, Hwf.
  - apply wf_mmul.
  - unfold nrows in *. cbn [cols_but_first mmul mrows].
    rewrite !length_map. symmetry. exact Hrows.
  - cbn [cols_but_first mmul ncols]. symmetry. exact Hcols.
Qed.

End KnownSubtraction.

(** ** More on reconstruction *)

Section ReconstructionRuns.
Context {C : Type} {S : Scalar C} {E : Externals C}.
Local Abbreviation vector := (@vector C).
Local Abbreviation matrix := (@matrix C).
Local Abbreviation DMDOperator := (@DMDOperator C).
Local Abbreviation DMDc := (@DMDc C).

Lemma wf_transpose (M : matrix) : wf (transpose M).
Proof.
  unfold wf, transpose, columns, col; simpl.
  apply Forall_map, Forall_forall. intros j _. apply length_map.
Qed.

Lemma array_T_wf (d0 : vector) (rest : list vector) (R : matrix) :
  array_T d0 rest = Ok R -> wf R.
Proof.
  unfold array_T. destruct (same_length _ _); [|discriminate].
  intros [= <-]. apply wf_transpose.
Qed.

(** What a reconstruction that returns has computed. *)
Lemma reconstruction_run (ci : option raw) (s s' : DMDc) (R : matrix) :
  reconstructed_data ci s = (Ok R, s') ->
  exists controlin horizon snapshots eigs_scaled Phi Pinv,
    control_used ci s = Ok controlin /\
    dynamics_shape_1 s = (Ok horizon, s) /\
    Z.of_nat (ncols controlin) = (horizon - 1)%Z /\
    _snapshots s = Some snapshots /\
    scaled_eigs s = (Ok eigs_scaled, s) /\
    DMDc_modes s = (Ok Phi, s) /\
    pinv Phi = Some Pinv /\
    ncols R = ncols controlin + 1 /\
    nrows R = nrows snapshots /\
    wf R /\
    col 0 R = col 0 snapshots /\
    forall i, i < ncols controlin ->
      exists B,
        _B s = Some B /\
        vadd (mvmul (product Phi [diag eigs_scaled; Pinv]) (col i R))
             (mvmul B (col i controlin))
        = Ok (col (i + 1) R).
Proof.
  intros H. apply reconstructed_data_Ok in H.
  destruct H as (controlin & horizon & Hc & Hd & Hk & H).
  unfold reconstructed_data_body in H.
  apply bind_Ok in H. destruct H as (eigs & s1 & He & H).
  assert (s1 = s) as -> by (eapply readonly_scaled_eigs; exact He).
  apply bind_Ok in H. destruct H as (Phi & s1 & HPhi & H).
  assert (s1 = s) as -> by (eapply on_operator_attr; exact HPhi).
  apply bind_Ok in H. destruct H as (PhiD & s1 & HPhiD & H).
  apply pure_run in HPhiD. destruct HPhiD as [HPhiD ->].
  apply bind_Ok in H. destruct H as (Phi' & s1 & HPhi' & H).
  assert (s1 = s) as -> by (eapply on_operator_attr; exact HPhi').
  assert (Phi' = Phi) by congruence. subst Phi'.
  run_ok.
  match goal with
  | Hp : propagate _ _ _ _ _ = _ |- _ =>
      apply propagate_Ok in Hp; [|reflexivity];
      destruct Hp as (-> & Hlen & Hkeep & Hstep)
  end.
  match goal with
  | Hm : (match ?d with _ => _ end) _ = _ |- _ =>
      destruct d as [|d0 rest]; [discriminate|];
      apply pure_run in Hm; destruct Hm as [HR _]
  end.
  pose proof (array_T_wf _ _ HR) as HwfR.
  apply array_T_Ok in HR. destruct HR as (Hcols & Hnrows & Hcol).
  unfold columns in Hlen. rewrite length_map, length_seq in Hlen.
  simpl in Hlen.
  match goal with
  | Hd1 : dot Phi _ = Ok ?P1, Hd2 : dot ?P1 _ = Ok _ |- _ =>
      apply dot_Ok in Hd1; destruct Hd1 as [Hs1 ->];
      apply dot_Ok in Hd2; destruct Hd2 as [Hs2 ->]
  end.
  match goal with
  | Hf : first_column ?X = Ok _ |- _ =>
      unfold first_column in Hf;
      destruct (ncols X =? 0); [discriminate|]; injection Hf as <-
  end.
  pose proof (Hkeep 0 (Nat.le_refl 0)) as Hfirst. cbn [nth] in Hfirst.
  do 6 eexists. split; [exact Hc|]. split; [exact Hd|].
  split; [exact Hk|]. split; [eassumption|].
  split; [exact He|]. split; [exact HPhi|]. split; [eassumption|].
  split; [lia|].
  split; [rewrite Hnrows, Hfirst; unfold col, nrows; apply length_map|].
  split; [exact HwfR|].
  split; [rewrite Hcol by lia; exact Hfirst|].
  intros i Hi.
  destruct (Hstep i) as (B & Ax & Bu & HB & HAx & HBu & Hsum).
  { unfold columns. now rewrite length_map, length_seq. }
  rewrite nth_columns in HBu by exact Hi.
  cbn [Nat.add] in HAx, Hsum.
  rewrite <- !Hcol in HAx, Hsum by lia.
  apply dot_vec_Ok in HAx. destruct HAx as [_ ->].
  apply dot_vec_Ok in HBu. destruct HBu as [_ ->].
  exists B. auto.
Qed.

(** X10: the reconstruction is a well-formed array with one row for each
    state and one column more than the control sequence it used. *)
Theorem reconstructed_data_shape (ci : option raw) (s s' : DMDc)
        (R snapshots controlin : matrix) :
  reconstructed_data ci s = (Ok R, s') ->
  _snapshots s = Some snapshots ->
  control_used ci s = Ok controlin ->
  wf R /\ nrows R = nrows snapshots /\ ncols R = ncols controlin + 1.
Proof.
  intros H HX Hc. apply reconstruction_run in H.
  destruct H as (controlin' & horizon & snapshots' & eigs & Phi & Pinv & Hc'
                 & _ & _ & HX' & _ & _ & _ & Hcols & Hrows & Hwf & _).
  rewrite HX in HX'. injection HX' as <-.
  rewrite Hc in Hc'. injection Hc' as <-. auto.
Qed.

(** X11: what a reconstruction forecasts up to step n depends only on the
    controls before n: two control sequences that agree on their first n
    columns give reconstructions that agree on their first n + 1
    columns. *)
Theorem reconstructed_data_causal (ci1 ci2 : option raw) (s s1 s2 : DMDc)
        (R1 R2 c1 c2 : matrix) (n : nat) :
  reconstructed_data ci1 s = (Ok R1, s1) ->
  reconstructed_data ci2 s = (Ok R2, s2) ->
  control_used ci1 s = Ok c1 ->
  control_used ci2 s = Ok c2 ->
  n <= ncols c1 ->
  (forall j, j < n -> col j c1 = col j c2) ->
  forall j, j <= n -> col j R1 = col j R2.
Proof.
  intros H1 H2 Hc1 Hc2 Hn Hagree.
  apply reconstruction_run in H1, H2.
  destruct H1 as (c1' & h1 & X1 & eigs1 & Phi1 & Pinv1 & Hc1' & Hd1 & Hk1
                  & HX1 & He1 & HP1 & Hpi1 & _ & _ & _ & H01 & Hrec1).
  destruct H2 as (c2' & h2 & X2 & eigs2 & Phi2 & Pinv2 & Hc2' & Hd2 & Hk2
                  & HX2 & He2 & HP2 & Hpi2 & _ & _ & _ & H02 & Hrec2).
  rewrite Hc1 in Hc1'. injection Hc1' as <-.
  rewrite Hc2 in Hc2'. injection Hc2' as <-.
  rewrite Hd1 in Hd2. injection Hd2 as <-.
  rewrite HX1 in HX2. injection HX2 as <-.
  rewrite He1 in He2. injection He2 as <-.
  rewrite HP1 in HP2. injection HP2 as <-.
  rewrite Hpi1 in Hpi2. injection Hpi2 as <-.
  assert (Hsame : ncols c1 = ncols c2) by lia.
  induction j as [|j IH]; intros Hj; [congruence|].
  destruct (Hrec1 j) as (B1 & HB1 & Hs1); [lia|].
  destruct (Hrec2 j) as (B2 & HB2 & Hs2); [lia|].
  rewrite HB1 in HB2. injection HB2 as <-.
  rewrite IH, Hagree in Hs1 by lia.
  rewrite Hs1 in Hs2. injection Hs2 as Hs2.
  now rewrite !Nat.add_1_r in Hs2.
Qed.

(** X12: handing [reconstructed_data] the control sequence stored by
    [fit] is the same as omitting the argument. *)
Theorem reconstructed_data_stored_control (ci : raw) (s : DMDc)
        (c : matrix) (sh : option shape) :
  _col_major_2darray ci = Some (c, sh) ->
  _controlin s = Some c ->
  reconstructed_data (Some ci) s = reconstructed_data None s.
Proof.
  intros Hp Hc. unfold reconstructed_data.
  unfold bind at 1. unfold bind at 1. cbn [pure]. rewrite Hp.
  cbn [of_external ret].
  symmetry. unfold bind at 1. unfold bind at 1. cbn [read].
  unfold bind at 1. cbn [read ret]. rewrite Hc. reflexivity.
Qed.

(** X13: a model that was never fitted has no B and no basis, and
    [reconstructed_data] raises on it whatever its argument, leaving it
    as it was created. *)
Theorem nothing_before_fit (kw : operator_kwargs) (ci : option raw) :
  fst (DMDc_B (DMDc_init (C := C) kw)) = Ok None /\
  fst (DMDc_basis (DMDc_init (C := C) kw)) = Ok None /\
  exists e, reconstructed_data ci (DMDc_init kw) = (Err e, DMDc_init kw).
Proof.
  split; [reflexivity|]. split; [reflexivity|].
  unfold reconstructed_data. destruct ci as [ci|].
  - unfold bind at 1. unfold bind at 1. cbn [pure].
    destruct (_col_major_2darray ci) as [[c sh]|]; cbn [of_external ret].
    + unfold bind at 1. cbn [pure not_None].
      unfold bind at 1. unfold dynamics_shape_1. unfold bind at 1.
      cbn [attr DMDc_init dmd_time not_None]. eauto.
    + eauto.
  - unfold bind at 1. unfold bind at 1. cbn [read].
    unfold bind at 1. cbn [read ret DMDc_init _controlin _controlin_shape].
    unfold bind at 1. cbn [pure not_None]. eauto.
Qed.

End ReconstructionRuns.

(** ** The worked instance, run *)

Section DemoRuns.
Import Demo.
Local Open Scope Z_scope.

Lemma gpow_1 (z : G) : gpow z 1 = z.
Proof.
  reflexivity.
Qed.

Lemma demo_eig_shape (A : matrix) (w : vector) (W : matrix) :
  demo_eig A = Some (w, W) -> length w = ncols W.
Proof.
  destruct A as [n rows].
  destruct n as [|[|n]]; try discriminate.
  destruct rows as [|[|a [|b r]] [|r' rows]]; try discriminate.
  simpl. intros [= <- <-]. reflexivity.
Qed.

Example fit_unknown_run :
  fit snapshots control None (DMDc_init (C := G) kwargs) = (Ok tt, fitted_unknown).
Proof. vm_compute. reflexivity. Qed.

Example fitted_unknown_B : _B fitted_unknown = Some (Mat 1 [[g 1]]).
Proof. vm_compute. reflexivity. Qed.

Example reconstruction_unknown_run :
  reconstructed_data None fitted_unknown = (Ok snapshots, fitted_unknown).
Proof. vm_compute. reflexivity. Qed.

Example reconstruction_known_run :
  reconstructed_data None fitted_known = (Ok snapshots, fitted_known).
Proof. vm_compute. reflexivity. Qed.

End DemoRuns.

Import Demo.

Lemma C1_witness :
  fit (E := Demo.demo_externals) Demo.snapshots Demo.control None
      (DMDc_init (C := Demo.G) Demo.kwargs) = (Ok tt, Demo.fitted_unknown) /\
  exists op, _Atilde Demo.fitted_unknown = Some op /\
             op_class op = BUnknown.
Proof.
  assert (Hfit : fit (E := Demo.demo_externals) Demo.snapshots Demo.control
                     None (DMDc_init (C := Demo.G) Demo.kwargs)
                 = (Ok tt, Demo.fitted_unknown))
    by (vm_compute; reflexivity).
  split; [exact Hfit|].
  destruct (C1_unknown_B_state_operator _ _ _ Hfit)
    as (snapshots & shp & controlin & cshp & omega & Up & sp & Vp & Ur & sr
        & Vr & op & _ & _ & _ & _ & _ & _ & _ & _ & _ & Hop & Hcl & _).
  exists op. split; assumption.
Defined.

Lemma C2_witness :
  (forall A w W, Demo.demo_eig A = Some (w, W) -> length w = ncols W) /\
  fit (E := Demo.demo_externals) Demo.snapshots Demo.control None
      (DMDc_init (C := Demo.G) Demo.kwargs) = (Ok tt, Demo.fitted_unknown) /\
  exists op w, _Atilde Demo.fitted_unknown = Some op /\
               _eigenvalues op = Some w /\ _Lambda op = Some w.
Proof.
  assert (Hfit : fit (E := Demo.demo_externals) Demo.snapshots Demo.control
                     None (DMDc_init (C := Demo.G) Demo.kwargs)
                 = (Ok tt, Demo.fitted_unknown))
    by (vm_compute; reflexivity).
  split; [exact demo_eig_shape|]. split; [exact Hfit|].
  destruct (C2_unknown_B_modes_and_Lambda (E := Demo.demo_externals) _ _ _
              demo_eig_shape Hfit)
    as (snapshots & shp & controlin & cshp & omega & Up & sp & Vp & Ur & sr
        & Vr & op & Atilde & w & W & _ & _ & _ & _ & _ & Hop & _ & _ & Hw
        & _ & _ & _ & HL & _).
  exists op, w. repeat split; assumption.
Defined.

Lemma C3_witness :
  fit (E := Demo.demo_externals) Demo.snapshots Demo.control None
      (DMDc_init (C := Demo.G) Demo.kwargs) = (Ok tt, Demo.fitted_unknown) /\
  exists Ur, _basis Demo.fitted_unknown = Some Ur.
Proof.
  assert (Hfit : fit (E := Demo.demo_externals) Demo.snapshots Demo.control
                     None (DMDc_init (C := Demo.G) Demo.kwargs)
                 = (Ok tt, Demo.fitted_unknown))
    by (vm_compute; reflexivity).
  split; [exact Hfit|].
  destruct (C3_unknown_B_control_operator _ _ _ Hfit)
    as (snapshots & shp & controlin & cshp & omega & Up & sp & Vp & Ur & sr
        & Vr & op & _ & _ & _ & _ & _ & _ & _ & _ & _ & Hbasis & _).
  exists Ur. exact Hbasis.
Defined.

Lemma C4_witness :
  fit (E := Demo.demo_externals) Demo.snapshots Demo.control
      (Some Demo.B1) (DMDc_init (C := Demo.G) Demo.kwargs)
  = (Ok tt, Demo.fitted_known) /\
  _B Demo.fitted_known = Some Demo.B1.
Proof.
  assert (Hfit : fit (E := Demo.demo_externals) Demo.snapshots Demo.control
                     (Some Demo.B1) (DMDc_init (C := Demo.G) Demo.kwargs)
                 = (Ok tt, Demo.fitted_known))
    by (vm_compute; reflexivity).
  split; [exact Hfit|].
  destruct (C4_known_B_delegates _ _ _ _ Hfit)
    as (snapshots & shp & controlin & cshp & P & Y' & U & sv & V & op & _
        & _ & _ & _ & _ & _ & _ & _ & HB).
  exact HB.
Defined.

Lemma C5_witness :
  reconstructed_data (E := Demo.demo_externals) None Demo.fitted_unknown
  = (Ok Demo.snapshots, Demo.fitted_unknown) /\
  ncols Demo.snapshots = 2 + 1.
Proof.
  assert (Hrun : reconstructed_data (E := Demo.demo_externals) None
                   Demo.fitted_unknown
                 = (Ok Demo.snapshots, Demo.fitted_unknown))
    by (vm_compute; reflexivity).
  split; [exact Hrun|].
  destruct (C5_reconstructed_columns _ _ Hrun)
    as (controlin & snapshots & eigs & Phi & Pinv & Hc & _ & _ & _ & _ & _
        & Hcols & _).
  vm_compute in Hc. injection Hc as <-. exact Hcols.
Defined.

Lemma C6_witness :
  control_used (E := Demo.demo_externals) None Demo.fitted_short
  = Ok Demo.short_control /\
  dynamics_shape_1 Demo.fitted_short = (Ok 3%Z, Demo.fitted_short) /\
  (fst (reconstructed_data (E := Demo.demo_externals) None
          Demo.fitted_short) = Err ReconstructionSizeError <->
   Z.of_nat (ncols Demo.short_control) <> (3 - 1)%Z).
Proof.
  assert (Hc : control_used (E := Demo.demo_externals) None
                 Demo.fitted_short = Ok Demo.short_control)
    by (vm_compute; reflexivity).
  assert (Hd : dynamics_shape_1 Demo.fitted_short
               = (Ok 3%Z, Demo.fitted_short))
    by (vm_compute; reflexivity).
  split; [exact Hc|]. split; [exact Hd|].
  exact (proj1 (C6_size_error _ Hc Hd)).
Defined.

(** C7 fails as it is written: this fit raises in the stacking, and the
    snapshots, the control sequence and both time descriptors, unset
    before the call, are set after it. *)
Lemma C7_counterexample :
  fit (E := Demo.demo_externals) Demo.snapshots Demo.long_control None
      (DMDc_init (C := Demo.G) Demo.kwargs)
  = (Err ValueError, Demo.failed_long) /\
  _snapshots (DMDc_init (C := Demo.G) Demo.kwargs) = None /\
  _snapshots Demo.failed_long = Some Demo.snapshots /\
  _controlin Demo.failed_long = Some Demo.long_control /\
  original_time Demo.failed_long = Some (TimeDict 0 2 1) /\
  dmd_time Demo.failed_long = Some (TimeDict 0 2 1).
Proof.
  do 5 (split; [vm_compute; reflexivity|]). vm_compute. reflexivity.
Qed.

Lemma C7_witness :
  fit (E := Demo.demo_externals) Demo.snapshots Demo.long_control None
      (DMDc_init (C := Demo.G) Demo.kwargs)
  = (Err ValueError, Demo.failed_long) /\
  _b Demo.failed_long = None.
Proof.
  assert (Hfit : fit (E := Demo.demo_externals) Demo.snapshots
                     Demo.long_control None
                     (DMDc_init (C := Demo.G) Demo.kwargs)
                 = (Err ValueError, Demo.failed_long))
    by (vm_compute; reflexivity).
  split; [exact Hfit|].
  exact (proj1 (C7_fit_error_state _ _ _ _ Hfit)).
Defined.

Lemma C8_witness :
  (forall z : Demo.G, Demo.gpow z 1 = z) /\
  fit (E := Demo.demo_externals) Demo.snapshots Demo.control None
      (DMDc_init (C := Demo.G) Demo.kwargs) = (Ok tt, Demo.fitted_unknown) /\
  dmd_time Demo.fitted_unknown = Some (TimeDict 0 (Z.of_nat 3 - 1) 1).
Proof.
  assert (Hfit : fit (E := Demo.demo_externals) Demo.snapshots Demo.control
                     None (DMDc_init (C := Demo.G) Demo.kwargs)
                 = (Ok tt, Demo.fitted_unknown))
    by (vm_compute; reflexivity).
  split; [exact gpow_1|]. split; [exact Hfit|].
  destruct (C8_time_descriptors_and_scaling (S := Demo.GaussZ) _ _ _ _
              gpow_1 Hfit)
    as (snapshots & shp & w & HX & _ & Hdt & _).
  vm_compute in HX. injection HX as <- _. exact Hdt.
Defined.

(** C10 fails as it is written: with B given, a control matrix of a
    single column goes through the subtraction by broadcasting, the fit
    succeeds on three snapshots, and the reconstruction without argument
    raises the size error. *)
Lemma C10_counterexample :
  fit (E := Demo.demo_externals) Demo.snapshots Demo.short_control
      (Some Demo.B1) (DMDc_init (C := Demo.G) Demo.kwargs)
  = (Ok tt, Demo.fitted_short) /\
  ncols Demo.snapshots = 3 /\
  ncols Demo.short_control = 1 /\
  reconstructed_data (E := Demo.demo_externals) None Demo.fitted_short
  = (Err ReconstructionSizeError, Demo.fitted_short).
Proof.
  do 3 (split; [vm_compute; reflexivity|]). vm_compute. reflexivity.
Qed.

Lemma C10_witness :
  fit (E := Demo.demo_externals) Demo.snapshots Demo.control None
      (DMDc_init (C := Demo.G) Demo.kwargs) = (Ok tt, Demo.fitted_unknown) /\
  1 <= ncols Demo.snapshots /\
  fst (reconstructed_data (E := Demo.demo_externals) None
         Demo.fitted_unknown) <> Err ReconstructionSizeError.
Proof.
  assert (Hfit : fit (E := Demo.demo_externals) Demo.snapshots Demo.control
                     None (DMDc_init (C := Demo.G) Demo.kwargs)
                 = (Ok tt, Demo.fitted_unknown))
    by (vm_compute; reflexivity).
  assert (Hn : 1 <= ncols Demo.snapshots) by (vm_compute; lia).
  split; [exact Hfit|]. split; [exact Hn|].
  refine (proj2 (proj2 (C10_stored_control_passes_check
                          (E := Demo.demo_externals) _ _ _
                          (snapshots := Demo.snapshots)
                          (controlin := Demo.control)
                          (shp := None) (cshp := None)
                          Hfit eq_refl eq_refl Hn (or_introl eq_refl)))).
Defined.

(** ** More runs of the worked instance *)

Section DemoContracts.

Lemma list_eqb_length {A} (eqb : A -> A -> bool) (l1 l2 : list A) :
  Demo.list_eqb eqb l1 l2 = true -> length l1 = length l2.
Proof.
  revert l2. induction l1 as [|x l1 IH]; intros [|y l2]; simpl;
    try discriminate; [reflexivity|].
  intros H. apply andb_prop in H. destruct H as [_ H].
  f_equal. exact (IH _ H).
Qed.

Lemma meqb_nrows (A B : @matrix Demo.G) :
  Demo.meqb A B = true -> nrows A = nrows B.
Proof.
  unfold Demo.meqb. intros H. apply andb_prop in H. destruct H as [_ H].
  exact (list_eqb_length _ _ _ H).
Qed.

(** The decomposition of the worked instance returns a U with as many
    rows as the array it is given. *)
Lemma demo_svd_rows (M : @matrix Demo.G) (r : rank_spec) (U : @matrix Demo.G)
      (sg : @vector Demo.G) (V : @matrix Demo.G) :
  Demo.demo_svd M r = Some (U, sg, V) -> nrows U = nrows M.
Proof.
  unfold Demo.demo_svd.
  destruct r as [[|p|[p|p|]]|]; try discriminate.
  destruct (Demo.meqb M Demo.I2) eqn:H1.
  { intros [= <- _ _]. apply meqb_nrows in H1. now rewrite H1. }
  destruct (Demo.meqb M (Mat 2 [[Demo.g 1; Demo.g 0]])) eqn:H2.
  { intros [= <- _ _]. apply meqb_nrows in H2. now rewrite H2. }
  destruct (Demo.meqb M (Mat 2 [[Demo.g 0; Demo.g 1]])) eqn:H3.
  { intros [= <- _ _]. apply meqb_nrows in H3. now rewrite H3. }
  discriminate.
Qed.

End DemoContracts.

Lemma fit_unknown_B_rejects_control_columns_witness :
  ncols Demo.long_control <> ncols Demo.snapshots - 1 /\
  fst (fit (E := Demo.demo_externals) Demo.snapshots Demo.long_control None
           (DMDc_init (C := Demo.G) Demo.kwargs)) = Err ValueError.
Proof.
  assert (Hne : ncols Demo.long_control <> ncols Demo.snapshots - 1)
    by (vm_compute; lia).
  split; [exact Hne|].
  rewrite (fit_unknown_B_rejects_control_columns
             (E := Demo.demo_externals) Demo.snapshots Demo.long_control
             (DMDc_init (C := Demo.G) Demo.kwargs)
             (snapshots := Demo.snapshots) (controlin := Demo.long_control)
             (shp := None) (cshp := None) eq_refl eq_refl Hne).
  reflexivity.
Defined.

Lemma fit_known_B_rejects_B_columns_witness :
  ncols Demo.wide_B <> nrows Demo.control /\
  fst (fit (E := Demo.demo_externals) Demo.snapshots Demo.control
           (Some Demo.wide_B) (DMDc_init (C := Demo.G) Demo.kwargs))
  = Err ValueError.
Proof.
  assert (Hne : ncols Demo.wide_B <> nrows Demo.control)
    by (vm_compute; lia).
  split; [exact Hne|].
  rewrite (fit_known_B_rejects_B_columns
             (E := Demo.demo_externals) Demo.snapshots Demo.control
             Demo.wide_B (DMDc_init (C := Demo.G) Demo.kwargs)
             (snapshots := Demo.snapshots) (controlin := Demo.control)
             (shp := None) (cshp := None) eq_refl eq_refl Hne).
  reflexivity.
Defined.

Lemma fit_known_B_rejects_control_columns_witness :
  ncols Demo.B1 = nrows Demo.long_control /\
  ncols Demo.long_control <> ncols Demo.snapshots - 1 /\
  ncols Demo.long_control <> 1 /\
  ncols Demo.snapshots - 1 <> 1 /\
  fst (fit (E := Demo.demo_externals) Demo.snapshots Demo.long_control
           (Some Demo.B1) (DMDc_init (C := Demo.G) Demo.kwargs))
  = Err ValueError.
Proof.
  assert (H0 : ncols Demo.B1 = nrows Demo.long_control)
    by (vm_compute; reflexivity).
  assert (H1 : ncols Demo.long_control <> ncols Demo.snapshots - 1)
    by (vm_compute; lia).
  assert (H2 : ncols Demo.long_control <> 1) by (vm_compute; lia).
  assert (H3 : ncols Demo.snapshots - 1 <> 1) by (vm_compute; lia).
  do 4 (split; [assumption|]).
  rewrite (fit_known_B_rejects_control_columns
             (E := Demo.demo_externals) Demo.snapshots Demo.long_control
             Demo.B1 (DMDc_init (C := Demo.G) Demo.kwargs)
             (snapshots := Demo.snapshots)
             (controlin := Demo.long_control)
             (shp := None) (cshp := None) eq_refl eq_refl H0 H1 H2 H3).
  reflexivity.
Defined.

Lemma fit_unknown_B_failures_witness :
  fit (E := Demo.demo_externals) Demo.snapshots Demo.long_control None
      (DMDc_init (C := Demo.G) Demo.kwargs)
  = (Err ValueError, Demo.failed_long) /\
  (ValueError = ValueError \/ ValueError = ExternalError).
Proof.
  assert (Hfit : fit (E := Demo.demo_externals) Demo.snapshots
                     Demo.long_control None
                     (DMDc_init (C := Demo.G) Demo.kwargs)
                 = (Err ValueError, Demo.failed_long))
    by (vm_compute; reflexivity).
  split; [exact Hfit|].
  exact (fit_unknown_B_failures _ _ _ Hfit).
Defined.


Lemma fit_overwrites_witness :
  _dmd_operator_kwargs (DMDc_init (C := Demo.G) Demo.kwargs)
  = _dmd_operator_kwargs Demo.fitted_known /\
  fit (E := Demo.demo_externals) Demo.snapshots Demo.control None
      (DMDc_init (C := Demo.G) Demo.kwargs) = (Ok tt, Demo.fitted_unknown) /\
  fit (E := Demo.demo_externals) Demo.snapshots Demo.control None
      Demo.fitted_known = (Ok tt, Demo.fitted_unknown).
Proof.
  assert (Hkw : _dmd_operator_kwargs (DMDc_init (C := Demo.G) Demo.kwargs)
                = _dmd_operator_kwargs Demo.fitted_known)
    by (vm_compute; reflexivity).
  assert (Hfit : fit (E := Demo.demo_externals) Demo.snapshots Demo.control
                     None (DMDc_init (C := Demo.G) Demo.kwargs)
                 = (Ok tt, Demo.fitted_unknown))
    by (vm_compute; reflexivity).
  split; [exact Hkw|]. split; [exact Hfit|].
  exact (fit_overwrites _ _ _ _ _ Hkw Hfit).
Defined.

Lemma fit_unknown_B_shapes_witness :
  fit (E := Demo.demo_externals) Demo.snapshots Demo.control None
      (DMDc_init (C := Demo.G) Demo.kwargs) = (Ok tt, Demo.fitted_unknown) /\
  exists U, _basis Demo.fitted_unknown = Some U /\
            nrows U = nrows Demo.snapshots.
Proof.
  assert (Hfit : fit (E := Demo.demo_externals) Demo.snapshots Demo.control
                     None (DMDc_init (C := Demo.G) Demo.kwargs)
                 = (Ok tt, Demo.fitted_unknown))
    by (vm_compute; reflexivity).
  split; [exact Hfit|].
  destruct (fit_unknown_B_shapes (E := Demo.demo_externals) _ _ _
              (snapshots := Demo.snapshots) (shp := None) Hfit eq_refl)
    as (op & Atilde & Phi & U & _ & _ & _ & HU & Hrows & _).
  exists U. split; assumption.
Defined.

Lemma fit_unknown_B_shape_of_B_witness :
  (forall M r U sg V,
      Demo.demo_svd M r = Some (U, sg, V) -> nrows U = nrows M) /\
  fit (E := Demo.demo_externals) Demo.snapshots Demo.control None
      (DMDc_init (C := Demo.G) Demo.kwargs) = (Ok tt, Demo.fitted_unknown) /\
  exists B, _B Demo.fitted_unknown = Some B /\
            nrows B = nrows Demo.snapshots /\
            ncols B = nrows Demo.control.
Proof.
  assert (Hfit : fit (E := Demo.demo_externals) Demo.snapshots Demo.control
                     None (DMDc_init (C := Demo.G) Demo.kwargs)
                 = (Ok tt, Demo.fitted_unknown))
    by (vm_compute; reflexivity).
  split; [exact demo_svd_rows|]. split; [exact Hfit|].
  exact (fit_unknown_B_shape_of_B (E := Demo.demo_externals) _ _ _
           (snapshots := Demo.snapshots) (controlin := Demo.control)
           (shp := None) (cshp := None) demo_svd_rows Hfit eq_refl eq_refl).
Defined.

Lemma fit_known_B_subtracts_entrywise_witness :
  fit (E := Demo.demo_externals) Demo.snapshots Demo.control
      (Some Demo.B1) (DMDc_init (C := Demo.G) Demo.kwargs)
  = (Ok tt, Demo.fitted_known) /\
  wf Demo.snapshots /\
  nrows Demo.B1 = nrows Demo.snapshots /\
  ncols Demo.control = ncols Demo.snapshots - 1 /\
  exists U, _basis Demo.fitted_known = Some U.
Proof.
  assert (Hfit : fit (E := Demo.demo_externals) Demo.snapshots Demo.control
                     (Some Demo.B1) (DMDc_init (C := Demo.G) Demo.kwargs)
                 = (Ok tt, Demo.fitted_known))
    by (vm_compute; reflexivity).
  assert (Hwf : wf Demo.snapshots) by (repeat constructor).
  assert (Hr : nrows Demo.B1 = nrows Demo.snapshots)
    by (vm_compute; reflexivity).
  assert (Hc : ncols Demo.control = ncols Demo.snapshots - 1)
    by (vm_compute; reflexivity).
  split; [exact Hfit|]. do 3 (split; [assumption|]).
  destruct (fit_known_B_subtracts_entrywise
              (E := Demo.demo_externals) _ _ _ _
              (snapshots := Demo.snapshots) (controlin := Demo.control)
              (shp := None) (cshp := None) Hfit eq_refl eq_refl Hwf Hr Hc)
    as (U & sv & V & op & _ & _ & HU).
  exists U. exact HU.
Defined.

Lemma reconstructed_data_shape_witness :
  reconstructed_data (E := Demo.demo_externals) None Demo.fitted_unknown
  = (Ok Demo.snapshots, Demo.fitted_unknown) /\
  _snapshots Demo.fitted_unknown = Some Demo.snapshots /\
  control_used (E := Demo.demo_externals) None Demo.fitted_unknown
  = Ok Demo.control /\
  wf Demo.snapshots.
Proof.
  assert (Hrun : reconstructed_data (E := Demo.demo_externals) None
                   Demo.fitted_unknown
                 = (Ok Demo.snapshots, Demo.fitted_unknown))
    by (vm_compute; reflexivity).
  assert (HX : _snapshots Demo.fitted_unknown = Some Demo.snapshots)
    by (vm_compute; reflexivity).
  assert (Hc : control_used (E := Demo.demo_externals) None
                 Demo.fitted_unknown = Ok Demo.control)
    by (vm_compute; reflexivity).
  split; [exact Hrun|]. split; [exact HX|]. split; [exact Hc|].
  exact (proj1 (reconstructed_data_shape _ _ Hrun HX Hc)).
Defined.

Lemma reconstructed_data_causal_witness :
  reconstructed_data (E := Demo.demo_externals) None Demo.fitted_unknown
  = (Ok Demo.snapshots, Demo.fitted_unknown) /\
  reconstructed_data (E := Demo.demo_externals) (Some Demo.other_control)
                     Demo.fitted_unknown
  = (Ok (Mat 3 [[Demo.g 1; Demo.g 0; Demo.g 5]]), Demo.fitted_unknown) /\
  (forall j, j < 1 -> col j Demo.control = col j Demo.other_control) /\
  col 1 Demo.snapshots = col 1 (Mat 3 [[Demo.g 1; Demo.g 0; Demo.g 5]]).
Proof.
  assert (H1 : reconstructed_data (E := Demo.demo_externals) None
                 Demo.fitted_unknown
               = (Ok Demo.snapshots, Demo.fitted_unknown))
    by (vm_compute; reflexivity).
  assert (H2 : reconstructed_data (E := Demo.demo_externals)
                 (Some Demo.other_control) Demo.fitted_unknown
               = (Ok (Mat 3 [[Demo.g 1; Demo.g 0; Demo.g 5]]),
                  Demo.fitted_unknown))
    by (vm_compute; reflexivity).
  assert (Hc1 : control_used (E := Demo.demo_externals) None
                  Demo.fitted_unknown = Ok Demo.control)
    by (vm_compute; reflexivity).
  assert (Hc2 : control_used (E := Demo.demo_externals)
                  (Some Demo.other_control) Demo.fitted_unknown
                = Ok Demo.other_control)
    by (vm_compute; reflexivity).
  assert (Hn : 1 <= ncols Demo.control) by (vm_compute; lia).
  assert (Hagree : forall j, j < 1 ->
                             col j Demo.control = col j Demo.other_control).
  { intros j Hj. assert (j = 0) as -> by lia. vm_compute. reflexivity. }
  split; [exact H1|]. split; [exact H2|]. split; [exact Hagree|].
  exact (reconstructed_data_causal _ _ _ H1 H2 Hc1 Hc2 Hn Hagree
           (Nat.le_refl 1)).
Defined.

Lemma reconstructed_data_stored_control_witness :
  _controlin Demo.fitted_unknown = Some Demo.control /\
  reconstructed_data (E := Demo.demo_externals) (Some Demo.control)
                     Demo.fitted_unknown
  = reconstructed_data (E := Demo.demo_externals) None Demo.fitted_unknown.
Proof.
  assert (Hc : _controlin Demo.fitted_unknown = Some Demo.control)
    by (vm_compute; reflexivity).
  split; [exact Hc|].
  exact (reconstructed_data_stored_control (E := Demo.demo_externals)
           Demo.control Demo.fitted_unknown (c := Demo.control)
           (sh := None) eq_refl Hc).
Defined.
